(** * Empatica data extraction: a shallow embedding of [data_wrangling.py]

    The development follows the three parts of the module:
    - segment ordering ([extract_start_tstamp], the sort of [reading_avro_files]),
    - the signal extractor ([extract_signal_streamlit]),
    - the serializer ([_nan_to_none], [CompactJSONEncoder], [serialize_data_dict]).

    Python values are modelled by a small dynamically typed universe, floats by
    the binary64 numbers of the standard library, and strings by [string],
    whose characters are read as the code points 0..255. *)

From Stdlib Require Import ZArith List String Ascii Bool Lia Floats.
From Stdlib Require Import Decimal DecimalString.
From Stdlib Require DecimalPos DecimalZ.
From Stdlib Require Import Sorting.Sorted Sorting.Permutation.
Import ListNotations.

Set Warnings "-register-all,-inexact-float".

Local Open Scope Z_scope.
Local Open Scope string_scope.
Local Open Scope list_scope.

(** ** Python values *)

(** The values that a parsed container record can hold.  A dict is kept as an
    association list in insertion order, keyed by strings. *)
Inductive value : Type :=
| VNone
| VBool (b : bool)
| VInt (z : Z)
| VFloat (f : float)
| VStr (s : string)
| VList (l : list value)
| VDict (d : list (string * value)).

(** The exceptions that the modelled code can raise; all of them derive from
    [Exception] and are caught by [except Exception]. *)
Inductive exn : Type :=
| KeyError (key : string)
| TypeError
| ZeroDivisionError
| OverflowError
| ValueError (msg : string).

Inductive result (A : Type) : Type :=
| Ok (a : A)
| Raise (e : exn).
Arguments Ok {A} a.
Arguments Raise {A} e.

Definition is_ok {A} (r : result A) : bool :=
  match r with Ok _ => true | Raise _ => false end.

Fixpoint dict_get (d : list (string * value)) (k : string) : option value :=
  match d with
  | [] => None
  | (k', v) :: d' => if String.eqb k' k then Some v else dict_get d' k
  end.

(** [x[k]] for a string key [k]: only a dict can be subscripted by a string. *)
Definition getitem (x : value) (k : string) : result value :=
  match x with
  | VDict d => match dict_get d k with
               | Some v => Ok v
               | None => Raise (KeyError k)
               end
  | _ => Raise TypeError
  end.

Definition result_bind {A B} (r : result A) (f : A -> result B) : result B :=
  match r with Ok a => f a | Raise e => Raise e end.

(** [raw_data['rawData'][measure][field]] *)
Definition measure_field (raw_data : value) (measure field : string) : result value :=
  result_bind (getitem raw_data "rawData") (fun rd =>
  result_bind (getitem rd measure) (fun blk =>
  getitem blk field)).

Fixpoint chars (s : string) : list value :=
  match s with
  | EmptyString => []
  | String c s' => VStr (String c EmptyString) :: chars s'
  end.

(** The items that [list.extend(x)] iterates over. *)
Definition py_iter (x : value) : result (list value) :=
  match x with
  | VList l => Ok l
  | VStr s => Ok (chars s)
  | VDict d => Ok (map (fun kv => VStr (fst kv)) d)
  | _ => Raise TypeError
  end.

(** ** Numbers *)

Module Num.

(** Correctly rounded conversion of an integer to binary64. *)
Definition of_Z (z : Z) : float :=
  SF2Prim (binary_normalize prec emax z 0 false).

Definition of_nat (n : nat) : float := of_Z (Z.of_nat n).

Definition is_finite (f : float) : bool := PrimFloat.is_finite f.

(** [float(z)]: fails when the integer is too large for a float. *)
Definition float_of_int (z : Z) : result float :=
  let f := of_Z z in
  if is_finite f then Ok f else Raise OverflowError.

Definition Z2SF (z : Z) : spec_float :=
  match z with
  | Z0 => S754_zero false
  | Zpos p => S754_finite false p 0
  | Zneg p => S754_finite true p 0
  end.

(** [a / b] on two integers: the correctly rounded quotient. *)
Definition int_truediv (a b : Z) : result float :=
  if (b =? 0)%Z then Raise ZeroDivisionError
  else
    let q := SF2Prim (SFdiv prec emax (Z2SF a) (Z2SF b)) in
    if is_finite q then Ok q else Raise OverflowError.

Definition float_truediv (a b : float) : result float :=
  if PrimFloat.eqb b 0%float then Raise ZeroDivisionError
  else Ok (PrimFloat.div a b).

Inductive number : Type :=
| NInt (z : Z)
| NFloat (f : float).

(** The numeric reading of a value; [bool] is a subclass of [int]. *)
Definition as_number (v : value) : option number :=
  match v with
  | VInt z => Some (NInt z)
  | VBool b => Some (NInt (if b then 1 else 0))
  | VFloat f => Some (NFloat f)
  | _ => None
  end.

(** Python's true division [a / b]. *)
Definition truediv (a b : value) : result float :=
  match as_number a, as_number b with
  | Some (NInt x), Some (NInt y) => int_truediv x y
  | Some (NInt x), Some (NFloat y) =>
      result_bind (float_of_int x) (fun fx => float_truediv fx y)
  | Some (NFloat x), Some (NInt y) =>
      result_bind (float_of_int y) (fun fy => float_truediv x fy)
  | Some (NFloat x), Some (NFloat y) => float_truediv x y
  | _, _ => Raise TypeError
  end.

(** C [rint]: round to the nearest integer, ties to even. *)
Definition rint (x : float) : float :=
  if PrimFloat.eqb x 0%float then x
  else if PrimFloat.ltb (PrimFloat.abs x) 0x1p52%float then
    if PrimFloat.ltb x 0%float
    then PrimFloat.opp (PrimFloat.sub (PrimFloat.add (PrimFloat.opp x) 0x1p52%float) 0x1p52%float)
    else PrimFloat.sub (PrimFloat.add x 0x1p52%float) 0x1p52%float
  else x.

(** [round(x, 3)] on a numpy float: scale by [10**3], [rint], scale back. *)
Definition round3 (x : float) : float :=
  PrimFloat.div (rint (PrimFloat.mul x 1000%float)) 1000%float.

(** [np.linspace(start, stop, num=num, endpoint=True)] on two floats. *)
Definition linspace (start stop : float) (num : nat) : list float :=
  let div := (Z.of_nat num - 1)%Z in
  let delta := PrimFloat.sub stop start in
  let y := map of_nat (seq 0 num) in
  let y :=
    if (0 <? div)%Z then
      let step := PrimFloat.div delta (of_Z div) in
      if PrimFloat.eqb step 0%float
      then map (fun v => PrimFloat.mul (PrimFloat.div v (of_Z div)) delta) y
      else map (fun v => PrimFloat.mul v step) y
    else map (fun v => PrimFloat.mul v delta) y in
  let y := map (fun v => PrimFloat.add v start) y in
  if (1 <? num)%nat then removelast y ++ [stop] else y.

End Num.

(** ** The signal extractor *)

(** What the extractor reports through [st.info], [st.error] and
    [st.success].  An event carries the fields its message is formatted from. *)
Inductive event : Type :=
| StInfoGap (file_a file_b : nat) (tstamp_diff : float)
| StError (measure : string) (file_idx : nat) (e : exn)
| StSuccess (measure : string) (n_files : nat).

(** The three accumulators of [extract_signal_streamlit] and the messages
    emitted so far.  [tstamp_combine] only ever receives the floats produced
    by [np.linspace]. *)
Record acc : Type := mkAcc {
  fs_combine : list value;
  data_combine : list value;
  tstamp_combine : list float;
  messages : list event
}.

Definition acc0 : acc := mkAcc [] [] [] [].

(** Statements of the [try] body mutate the accumulators and may raise; the
    mutations made before a raise stay. *)
Definition M (A : Type) : Type := acc -> acc * result A.

Definition ret {A} (a : A) : M A := fun s => (s, Ok a).

Definition bind {A B} (m : M A) (f : A -> M B) : M B :=
  fun s => match m s with
           | (s', Ok a) => f a s'
           | (s', Raise e) => (s', Raise e)
           end.

Definition lift {A} (r : result A) : M A := fun s => (s, r).

Notation "x <- m ;; k" := (bind m (fun x => k))
  (at level 61, m at next level, right associativity).
Notation "m ;;; k" := (bind m (fun _ => k))
  (at level 61, right associativity).

Definition fs_append (v : value) : M unit :=
  fun s => (mkAcc (fs_combine s ++ [v]) (data_combine s) (tstamp_combine s) (messages s), Ok tt).

Definition data_extend (x : value) : M unit :=
  fun s => match py_iter x with
           | Ok items =>
               (mkAcc (fs_combine s) (data_combine s ++ items) (tstamp_combine s) (messages s), Ok tt)
           | Raise e => (s, Raise e)
           end.

Definition tstamp_extend (ts : list float) : M unit :=
  fun s => (mkAcc (fs_combine s) (data_combine s) (tstamp_combine s ++ ts) (messages s), Ok tt).

Definition emit (e : event) : M unit :=
  fun s => (mkAcc (fs_combine s) (data_combine s) (tstamp_combine s) (messages s ++ [e]), Ok tt).

Definition get_tstamps : M (list float) := fun s => (s, Ok (tstamp_combine s)).

(** [len(x)] for a value that [list.extend] has just iterated over. *)
Definition py_len (x : value) : result nat :=
  match x with
  | VList l => Ok (List.length l)
  | VStr s => Ok (String.length s)
  | VDict d => Ok (List.length d)
  | _ => Raise TypeError
  end.

(** The body of the [try] statement, lines 101 to 120. *)
Definition extract_body (file_idx : nat) (raw_data : value) (measure : string) : M unit :=
  meas_sampfreq <- lift (measure_field raw_data measure "samplingFrequency") ;;
  fs_append meas_sampfreq ;;;
  meas_data <- lift (measure_field raw_data measure "values") ;;
  data_extend meas_data ;;;
  meas_start_unix <- lift (measure_field raw_data measure "timestampStart") ;;
  meas_start_unix_s <- lift (Num.truediv meas_start_unix (VFloat 1e6%float)) ;;
  n <- lift (py_len meas_data) ;;
  q <- lift (Num.truediv (VInt (Z.of_nat n - 1)) meas_sampfreq) ;;
  let meas_end_unix_s := PrimFloat.add meas_start_unix_s q in
  tstamps <- get_tstamps ;;
  match tstamps with
  | [] => ret tt
  | _ :: _ =>
      let tstamp_diff :=
        Num.round3 (PrimFloat.sub meas_start_unix_s (last tstamps 0%float)) in
      emit (StInfoGap file_idx (file_idx + 1) tstamp_diff)
  end ;;;
  tstamp_extend (Num.linspace meas_start_unix_s meas_end_unix_s n).

(** One iteration of the [for] loop: the [try] body, with [except Exception]
    reporting the failure. *)
Definition extract_step (measure : string) (s : acc) (file_idx : nat) (raw_data : value) : acc :=
  match extract_body file_idx raw_data measure s with
  | (s', Ok _) => s'
  | (s', Raise e) =>
      mkAcc (fs_combine s') (data_combine s') (tstamp_combine s')
            (messages s' ++ [StError measure file_idx e])
  end.

Fixpoint extract_loop (measure : string) (s : acc) (file_idx : nat) (raw_datas : list value) : acc :=
  match raw_datas with
  | [] => s
  | raw_data :: rest =>
      extract_loop measure (extract_step measure s file_idx raw_data) (S file_idx) rest
  end.

(** The returned [data_dict]. *)
Record data_dict : Type := mkDataDict {
  fs : list value;
  samples : list value;
  tstamps : list float
}.

Definition extract_run (raw_datas : list value) (measure : string) : acc :=
  let s := extract_loop measure acc0 0 raw_datas in
  mkAcc (fs_combine s) (data_combine s) (tstamp_combine s)
        (messages s ++ [StSuccess measure (List.length raw_datas)]).

Definition extract_signal_streamlit (raw_datas : list value) (measure : string) : data_dict :=
  let s := extract_run raw_datas measure in
  mkDataDict (fs_combine s) (data_combine s) (tstamp_combine s).

(** The data dict as the Python object handed to the serializer. *)
Definition data_dict_value (d : data_dict) : value :=
  VDict [("fs", VList (fs d));
         ("samples", VList (samples d));
         ("tstamps", VList (map VFloat (tstamps d)))].

(** A record as the container reader produces it for one measure. *)
Definition block (sampfreq : value) (start : value) (vals : value) : value :=
  VDict [("samplingFrequency", sampfreq); ("timestampStart", start); ("values", vals)].

Definition record_of (measure : string) (blk : value) : value :=
  VDict [("rawData", VDict [(measure, blk)])].

(** ** Segment ordering *)

Module Ordering.

Definition is_digit (c : ascii) : bool :=
  let n := nat_of_ascii c in (48 <=? n)%nat && (n <=? 57)%nat.

Definition newline : ascii := ascii_of_nat 10.

(** [\d{n}] at the head of [s]: the digits and what follows them. *)
Fixpoint take_digits (n : nat) (s : string) : option (string * string) :=
  match n with
  | O => Some ("", s)
  | S n' =>
      match s with
      | String c s' =>
          if is_digit c then
            match take_digits n' s' with
            | Some (d, rest) => Some (String c d, rest)
            | None => None
            end
          else None
      | EmptyString => None
      end
  end.

(** [$] outside multiline mode: at the end of the string, or just before a
    newline that is its last character. *)
Definition at_dollar (s : string) : bool :=
  String.eqb s "" || String.eqb s (String newline "").

(** The look-ahead [(?=\.avro$)]. *)
Definition lookahead_avro (s : string) : bool :=
  match s with
  | String "." (String "a" (String "v" (String "r" (String "o" rest)))) => at_dollar rest
  | _ => false
  end.

(** An attempt to match [(\d{10})(?=\.avro$)] at the head of [s]; the result
    is group 1. *)
Definition match_here (s : string) : option string :=
  match take_digits 10 s with
  | Some (d, rest) => if lookahead_avro rest then Some d else None
  | None => None
  end.

(** [re.search]: the first position, from the left, where the pattern matches. *)
Fixpoint re_search (s : string) : option string :=
  match match_here s with
  | Some d => Some d
  | None =>
      match s with
      | EmptyString => None
      | String _ s' => re_search s'
      end
  end.

Definition digit_val (c : ascii) : Z := Z.of_nat (nat_of_ascii c) - 48.

(** [int(d)] on a string of decimal digits. *)
Definition int_of_digits (d : string) : Z :=
  fold_left (fun a c => 10 * a + digit_val c) (list_ascii_of_string d) 0.

(** The sort key: an [int], or [float('inf')]. *)
Inductive sort_key : Type :=
| KInt (z : Z)
| KInf.

Definition extract_start_tstamp (filename : string) : sort_key :=
  match re_search filename with
  | Some d => KInt (int_of_digits d)
  | None => KInf
  end.

(** [a < b] between the keys. *)
Definition key_lt (a b : sort_key) : bool :=
  match a, b with
  | KInt x, KInt y => (x <? y)%Z
  | KInt _, KInf => true
  | KInf, _ => false
  end.

Section Sorted.
Context {A : Type} (key : A -> sort_key).

Fixpoint insert_by (x : A) (l : list A) : list A :=
  match l with
  | [] => [x]
  | y :: l' => if key_lt (key y) (key x) then y :: insert_by x l' else x :: y :: l'
  end.

(** [sorted(l, key=key)]: a stable ascending sort that compares keys with [<]. *)
Definition sorted_by (l : list A) : list A := fold_right insert_by [] l.
End Sorted.

Fixpoint endswith (s suffix : string) : bool :=
  String.eqb s suffix ||
  match s with
  | EmptyString => false
  | String _ s' => endswith s' suffix
  end.

Record uploaded_file : Type := mkFile {
  name : string;
  getvalue : list Byte.byte
}.

(** Lines 56 to 60 of [reading_avro_files]: the eligible files, in reading order. *)
Definition sorted_files (uploaded_files : list uploaded_file) : list uploaded_file :=
  let avro_files := filter (fun f => endswith (name f) ".avro") uploaded_files in
  sorted_by (fun f => extract_start_tstamp (name f)) avro_files.

(** *** What the claims about the ordering speak of *)

Fixpoint all_digits (s : string) : bool :=
  match s with
  | EmptyString => true
  | String c s' => is_digit c && all_digits s'
  end.

(** [d] is a run of ten decimal digits of [s] that is followed by ".avro" and
    the end of [s]. *)
Definition marker_before_suffix (s d : string) : Prop :=
  String.length d = 10%nat /\ all_digits d = true /\
  exists p, s = (p ++ d ++ ".avro")%string.

(** The same, with one newline allowed between ".avro" and the end of [s]. *)
Definition marker_before_dollar (s d : string) : Prop :=
  String.length d = 10%nat /\ all_digits d = true /\
  exists p, s = (p ++ d ++ ".avro")%string \/
            s = (p ++ d ++ ".avro" ++ String newline "")%string.

Definition key_le (a b : sort_key) : bool := negb (key_lt b a).

(** The order in which a stable ascending sort by [key] leaves its elements. *)
Definition key_ord {A : Type} (key : A -> sort_key) (x y : A) : Prop :=
  key_le (key x) (key y) = true.

Definition key_eqb (a b : sort_key) : bool :=
  match a, b with
  | KInt x, KInt y => (x =? y)%Z
  | KInf, KInf => true
  | _, _ => false
  end.

Section Reading.
(** The container reader, [list(reader(bio))]; a failure is reported and the
    file left out. *)
Variable reader : list Byte.byte -> result (list value).

Definition reading_avro_files (uploaded_files : list uploaded_file) : list value :=
  fold_left (fun raw_datas f =>
               match reader (getvalue f) with
               | Ok records => raw_datas ++ records
               | Raise _ => raw_datas
               end)
            (sorted_files uploaded_files) [].
End Reading.

End Ordering.

(** ** The serializer *)

Module Serializer.

Local Open Scope string_scope.

(** *** String helpers *)

(** [str.lower] on one character of the range 0..255: the ASCII capitals and
    the accented capitals 0xC0..0xDE other than the multiplication sign. *)
Definition lower_char (c : ascii) : ascii :=
  let n := nat_of_ascii c in
  if ((65 <=? n) && (n <=? 90) || (192 <=? n) && (n <=? 222) && negb (n =? 215))%nat
  then ascii_of_nat (n + 32)
  else c.

Fixpoint py_lower (s : string) : string :=
  match s with
  | EmptyString => EmptyString
  | String c s' => String (lower_char c) (py_lower s')
  end.

(** [str.isspace] on one character of the range 0..255. *)
Definition is_space (c : ascii) : bool :=
  let n := nat_of_ascii c in
  ((9 <=? n) && (n <=? 13) || (28 <=? n) && (n <=? 32) || (n =? 133) || (n =? 160))%nat.

Fixpoint lstrip (s : string) : string :=
  match s with
  | EmptyString => EmptyString
  | String c s' => if is_space c then lstrip s' else s
  end.

Fixpoint rstrip (s : string) : string :=
  match s with
  | EmptyString => EmptyString
  | String c s' =>
      match rstrip s' with
      | EmptyString => if is_space c then EmptyString else String c EmptyString
      | r => String c r
      end
  end.

(** The string does not start with white space. *)
Definition no_leading_space (s : string) : Prop :=
  match s with
  | EmptyString => True
  | String c _ => is_space c = false
  end.

(** [str.strip()] *)
Definition py_strip (s : string) : string := rstrip (lstrip s).

(** [str.replace(old, new)] for a non-empty [old]: the occurrences are taken
    from the left and do not overlap.  [skip] counts the characters of a
    matched occurrence still to be dropped. *)
Fixpoint replace_go (old new : string) (skip : nat) (s : string) : string :=
  match s with
  | EmptyString => EmptyString
  | String c s' =>
      match skip with
      | S k => replace_go old new k s'
      | O =>
          if prefix old s
          then new ++ replace_go old new (String.length old - 1) s'
          else String c (replace_go old new 0 s')
      end
  end.

Definition py_replace (old new s : string) : string := replace_go old new 0 s.

(** [str.encode("utf-8")] on characters of the range 0..255. *)
Definition utf8_char (c : ascii) : list Byte.byte :=
  let n := nat_of_ascii c in
  if (n <? 128)%nat then [byte_of_ascii c]
  else [byte_of_ascii (ascii_of_nat (192 + n / 64));
        byte_of_ascii (ascii_of_nat (128 + n mod 64))].

Definition utf8_encode (s : string) : list Byte.byte :=
  flat_map utf8_char (list_ascii_of_string s).

(** [sub in s] *)
Fixpoint contains (sub s : string) : bool :=
  prefix sub s ||
  match s with
  | EmptyString => false
  | String _ s' => contains sub s'
  end.

(** *** Sanitizing *)

(** [_nan_to_none] *)
Fixpoint nan_to_none (x : value) : value :=
  match x with
  | VFloat f =>
      if PrimFloat.is_nan f || PrimFloat.is_infinity f then VNone else VFloat f
  | VList l => VList (map nan_to_none l)
  | VDict d => VDict (map (fun kv => (fst kv, nan_to_none (snd kv))) d)
  | _ => x
  end.

(** *** The JSON encoder *)

Definition nl : string := String Ordering.newline "".

Fixpoint spaces (n : nat) : string :=
  match n with
  | O => ""
  | S n' => String " " (spaces n')
  end.

(** ['\n' + _indent * level], with [indent = 2]. *)
Definition newline_indent (level : nat) : string := nl ++ spaces (2 * level).

Definition hex_digit (n : nat) : ascii :=
  if (n <? 10)%nat then ascii_of_nat (48 + n) else ascii_of_nat (87 + n).

(** The replacement of one character by [encode_basestring]. *)
Definition escape_char (c : ascii) : string :=
  let n := nat_of_ascii c in
  if (n =? 92)%nat then "\\"
  else if (n =? 34)%nat then String "\" (String (ascii_of_nat 34) "")
  else if (n =? 8)%nat then "\b"
  else if (n =? 12)%nat then "\f"
  else if (n =? 10)%nat then "\n"
  else if (n =? 13)%nat then "\r"
  else if (n =? 9)%nat then "\t"
  else if (n <? 32)%nat then
    "\u00" ++ String (hex_digit (n / 16)) (String (hex_digit (n mod 16)) "")
  else String c "".

Fixpoint escape (s : string) : string :=
  match s with
  | EmptyString => EmptyString
  | String c s' => escape_char c ++ escape s'
  end.

Definition quote : string := String (ascii_of_nat 34) "".

(** [encode_basestring], the string encoder used with [ensure_ascii=False]. *)
Definition encode_basestring (s : string) : string := quote ++ escape s ++ quote.

(** [int.__repr__] *)
Definition intstr (z : Z) : string := NilZero.string_of_int (Z.to_int z).

Section Encoder.
(** [float.__repr__] on a finite float. *)
Variable float_repr : float -> string.

Definition floatstr (o : float) : string :=
  if PrimFloat.is_nan o then "NaN"
  else if PrimFloat.eqb o infinity then "Infinity"
  else if PrimFloat.eqb o neg_infinity then "-Infinity"
  else float_repr o.

(** The text of a value that the encoder writes in one piece. *)
Definition scalar_text (o : value) : option string :=
  match o with
  | VStr s => Some (encode_basestring s)
  | VNone => Some "null"
  | VBool true => Some "true"
  | VBool false => Some "false"
  | VInt z => Some (intstr z)
  | VFloat f => Some (floatstr f)
  | VList _ | VDict _ => None
  end.

(** The loop of [_iterencode_list] over the items of a non-empty list;
    [enc] encodes a nested list or dict. *)
Definition iterencode_list_items (enc : value -> nat -> list string) (level : nat)
  : bool -> list value -> list string :=
  fix items (first : bool) (l : list value) {struct l} : list string :=
    match l with
    | [] => []
    | v :: l' =>
        let buf := ((if first then "[" else ",") ++ newline_indent (S level))%string in
        (match scalar_text v with
         | Some t => [(buf ++ t)%string]
         | None => buf :: enc v (S level)
         end ++ items false l')%list
    end.

(** The loop of [_iterencode_dict] over the items of a non-empty dict. *)
Definition iterencode_dict_items (enc : value -> nat -> list string) (level : nat)
  : bool -> list (string * value) -> list string :=
  fix items (first : bool) (d : list (string * value)) {struct d} : list string :=
    match d with
    | [] => []
    | (k, v) :: d' =>
        ((if first then [] else [("," ++ newline_indent (S level))%string]) ++
         [encode_basestring k; ": "] ++
         match scalar_text v with
         | Some t => [t]
         | None => enc v (S level)
         end ++ items false d')%list
    end.

(** The chunks yielded by [JSONEncoder.iterencode] with [indent=2] and
    [separators=(',', ': ')]: [_iterencode], [_iterencode_list] and
    [_iterencode_dict] of the pure Python encoder. *)
Fixpoint iterencode (o : value) (level : nat) {struct o} : list string :=
  match o with
  | VList [] => ["[]"]
  | VList l =>
      (iterencode_list_items iterencode level true l ++ [newline_indent level; "]"])%list
  | VDict [] => ["{}"]
  | VDict d =>
      (["{"; newline_indent (S level)] ++
       iterencode_dict_items iterencode level true d ++
       [newline_indent level; "}"])%list
  | _ => match scalar_text o with Some t => [t] | None => [] end
  end.

(** The rewriting that [CompactJSONEncoder.iterencode] applies to each chunk. *)
Definition compact_chunk (s : string) : string :=
  py_replace (nl ++ "  ]") "]"
    (py_replace (nl ++ "    ") " "
       (py_replace (nl ++ "  [" ++ nl ++ "    ") " [" s)).

Definition compact_iterencode (o : value) : list string :=
  map compact_chunk (iterencode o 0).

(** [json.dumps(o, ensure_ascii=False, cls=CompactJSONEncoder)] for a value
    that is not a bare string: the chunks joined. *)
Definition json_dumps (o : value) : string :=
  String.concat "" (compact_iterencode o).

(** The same with the plain encoder, for comparison. *)
Definition json_dumps_plain (o : value) : string :=
  String.concat "" (iterencode o 0).

(** *** Dispatch on the format *)

(** [pickle.dumps] and the data frame's [to_csv] are library calls. *)
Variable pickle_dumps : value -> list Byte.byte.
Variable frame_to_csv : value -> value -> result string.

Definition dict_get_default (x : value) (k : string) (default : value) : result value :=
  match x with
  | VDict d => Ok (match dict_get d k with Some v => v | None => default end)
  | _ => Raise TypeError
  end.

Definition unsupported_format : string :=
  "Unsupported format. Use 'pickle', 'json', or 'csv'.".

Definition serialize_data_dict (data_dict : value) (fmt : string) (base_name : string)
  : result (list Byte.byte * string * string) :=
  let fmt := py_strip (py_lower fmt) in
  if String.eqb fmt "pickle" then
    Ok (pickle_dumps data_dict, base_name ++ ".pkl", "application/octet-stream")
  else if String.eqb fmt "json" then
    let safe_obj := nan_to_none data_dict in
    Ok (utf8_encode (json_dumps safe_obj), base_name ++ ".json", "application/json")
  else if String.eqb fmt "csv" then
    result_bind (dict_get_default data_dict "tstamps" (VList [])) (fun ts =>
    result_bind (dict_get_default data_dict "samples" (VList [])) (fun sm =>
    result_bind (frame_to_csv ts sm) (fun text =>
    Ok (utf8_encode text, base_name ++ ".csv", "text/csv"))))
  else Raise (ValueError unsupported_format).
End Encoder.

End Serializer.

(** ** Segments as the extractor reads them *)

(** [segment raw measure sampfreq items start_s q]: every fallible expression
    of the [try] body succeeds on [raw]; [sampfreq] is the frequency read,
    [items] the values iterated over, [start_s] the value of
    [meas_start_unix / 1e6] and [q] the value of
    [(len(meas_data) - 1) / meas_sampfreq]. *)
Definition segment (raw : value) (measure : string) (sampfreq : value)
    (items : list value) (start_s q : float) : Prop :=
  exists meas_data meas_start_unix,
    measure_field raw measure "samplingFrequency" = Ok sampfreq /\
    measure_field raw measure "values" = Ok meas_data /\
    py_iter meas_data = Ok items /\
    measure_field raw measure "timestampStart" = Ok meas_start_unix /\
    Num.truediv meas_start_unix (VFloat 1e6%float) = Ok start_s /\
    Num.truediv (VInt (Z.of_nat (List.length items) - 1)) sampfreq = Ok q.

(** The record has no frequency to read for the measure: the first statement
    of the [try] body raises. *)
Definition freq_missing (raw : value) (measure : string) : bool :=
  negb (is_ok (measure_field raw measure "samplingFrequency")).

(** The record passes extraction: no statement of the [try] body raises. *)
Definition passes (raw : value) (measure : string) : bool :=
  match measure_field raw measure "samplingFrequency",
        measure_field raw measure "values",
        measure_field raw measure "timestampStart" with
  | Ok sampfreq, Ok meas_data, Ok meas_start_unix =>
      match py_iter meas_data with
      | Ok items =>
          is_ok (Num.truediv meas_start_unix (VFloat 1e6%float)) &&
          is_ok (Num.truediv (VInt (Z.of_nat (List.length items) - 1)) sampfreq)
      | Raise _ => false
      end
  | _, _, _ => false
  end.

(** A record that either has no frequency to read or passes: no statement
    after the first one raises. *)
Definition clean (measure : string) (raw : value) : Prop :=
  freq_missing raw measure = true \/ passes raw measure = true.

(** The messages a passing segment adds: the gap to the timestamps
    accumulated so far, when there are any. *)
Definition gap_messages (s : acc) (file_idx : nat) (start_s : float) : list event :=
  match tstamp_combine s with
  | [] => []
  | _ :: _ =>
      [StInfoGap file_idx (file_idx + 1)
         (Num.round3 (PrimFloat.sub start_s (last (tstamp_combine s) 0%float)))]
  end.

Definition is_error (e : event) : bool :=
  match e with StError _ _ _ => true | _ => false end.

(** The sampling frequency of a block is a number that is not positive. *)
Definition nonpositive (v : value) : bool :=
  match Num.as_number v with
  | Some (Num.NInt z) => (z <=? 0)%Z
  | Some (Num.NFloat f) => PrimFloat.leb f 0%float
  | None => false
  end.

(** A grid of [np.linspace] without special values: the start is finite and
    not the negative zero, and the extent (for fewer than two points) or the
    step (for two points or more) is finite, the step not being zero. *)
Definition regular_grid (start_s end_s : float) (n : nat) : bool :=
  let delta := PrimFloat.sub end_s start_s in
  let step := PrimFloat.div delta (Num.of_Z (Z.of_nat n - 1)) in
  PrimFloat.is_finite start_s &&
  negb (PrimFloat.is_zero start_s && PrimFloat.get_sign start_s) &&
  (if (1 <? n)%nat
   then PrimFloat.is_finite step && negb (PrimFloat.eqb step 0%float)
   else PrimFloat.is_finite delta).

(** ** Reading JSON back *)

(** A reader for the JSON text that the serializer writes: the grammar of
    RFC 8259, with [NaN] and [Infinity] not accepted.  It stands for the
    parser that the output is handed to. *)
Module Json.

Local Open Scope string_scope.

Definition is_ws (c : ascii) : bool :=
  let n := nat_of_ascii c in
  ((n =? 32) || (n =? 10) || (n =? 13) || (n =? 9))%nat.

Fixpoint skip_ws (s : string) : string :=
  match s with
  | EmptyString => EmptyString
  | String c s' => if is_ws c then skip_ws s' else s
  end.

(** The characters of a number literal: digits, signs, point and exponent. *)
Definition is_number_char (c : ascii) : bool :=
  let n := nat_of_ascii c in
  ((48 <=? n) && (n <=? 57) || (n =? 45) || (n =? 43) || (n =? 46)
   || (n =? 101) || (n =? 69))%nat.

Definition is_float_marker (c : ascii) : bool :=
  let n := nat_of_ascii c in
  ((n =? 46) || (n =? 101) || (n =? 69))%nat.

(** The longest run of number characters at the head of [s], and the rest. *)
Fixpoint number_run (s : string) : string * string :=
  match s with
  | EmptyString => (EmptyString, EmptyString)
  | String c s' =>
      if is_number_char c
      then let (lit, rest) := number_run s' in (String c lit, rest)
      else (EmptyString, s)
  end.

Fixpoint all_chars (p : ascii -> bool) (s : string) : bool :=
  match s with
  | EmptyString => true
  | String c s' => p c && all_chars p s'
  end.

Fixpoint any_char (p : ascii -> bool) (s : string) : bool :=
  match s with
  | EmptyString => false
  | String c s' => p c || any_char p s'
  end.

(** A literal that reads as a float: not empty, made of number characters,
    with a point or an exponent. *)
Definition float_literal (s : string) : bool :=
  negb (String.eqb s "") && all_chars is_number_char s && any_char is_float_marker s.

Definition hex_val (c : ascii) : option nat :=
  let n := nat_of_ascii c in
  if ((48 <=? n) && (n <=? 57))%nat then Some (n - 48)%nat
  else if ((97 <=? n) && (n <=? 102))%nat then Some (n - 87)%nat
  else if ((65 <=? n) && (n <=? 70))%nat then Some (n - 55)%nat
  else None.

(** The character that follows a backslash, other than [u]. *)
Definition unescape (c : ascii) : option ascii :=
  let n := nat_of_ascii c in
  if (n =? 34)%nat then Some c
  else if (n =? 92)%nat then Some c
  else if (n =? 47)%nat then Some c
  else if (n =? 98)%nat then Some (ascii_of_nat 8)
  else if (n =? 102)%nat then Some (ascii_of_nat 12)
  else if (n =? 110)%nat then Some (ascii_of_nat 10)
  else if (n =? 114)%nat then Some (ascii_of_nat 13)
  else if (n =? 116)%nat then Some (ascii_of_nat 9)
  else None.

(** The contents of a string literal, read from just after its opening
    quote, and what follows its closing quote. *)
Fixpoint read_string (s : string) : option (string * string) :=
  match s with
  | EmptyString => None
  | String c r =>
      if (nat_of_ascii c =? 34)%nat then Some (EmptyString, r)
      else if (nat_of_ascii c =? 92)%nat then
        match r with
        | String "u" (String h1 (String h2 (String h3 (String h4 r')))) =>
            match hex_val h1, hex_val h2, hex_val h3, hex_val h4, read_string r' with
            | Some 0%nat, Some 0%nat, Some a, Some b, Some (t, rest) =>
                Some (String (ascii_of_nat (16 * a + b)) t, rest)
            | _, _, _, _, _ => None
            end
        | String e r' =>
            match unescape e, read_string r' with
            | Some c', Some (t, rest) => Some (String c' t, rest)
            | _, _ => None
            end
        | EmptyString => None
        end
      else if (nat_of_ascii c <? 32)%nat then None
      else
        match read_string r with
        | Some (t, rest) => Some (String c t, rest)
        | None => None
        end
  end.

(** Setting a key of a dict: the value is replaced in place when the key is
    there, and the item is appended when it is not. *)
Fixpoint dict_set (d : list (string * value)) (k : string) (v : value)
  : list (string * value) :=
  match d with
  | [] => [(k, v)]
  | (k', v') :: d' =>
      if String.eqb k' k then (k', v) :: d' else (k', v') :: dict_set d' k v
  end.

Section Reader.

(** [float] on the text of a number literal. *)
Variable float_of_text : string -> option float.

Definition number_of_literal (lit : string) : option value :=
  if any_char is_float_marker lit
  then option_map VFloat (float_of_text lit)
  else option_map (fun d => VInt (Z.of_int d)) (NilZero.int_of_string lit).

(** The value at the head of [s], after white space, and the rest.  [fuel]
    bounds the nesting and the number of items. *)
Fixpoint parse_value (fuel : nat) (s : string) {struct fuel} : option (value * string) :=
  match fuel with
  | O => None
  | S n =>
      let s1 := skip_ws s in
      match number_run s1 with
      | (String c lit, rest) =>
          option_map (fun v => (v, rest)) (number_of_literal (String c lit))
      | (EmptyString, _) =>
          match s1 with
          | String "n" (String "u" (String "l" (String "l" r))) => Some (VNone, r)
          | String "t" (String "r" (String "u" (String "e" r))) => Some (VBool true, r)
          | String "f" (String "a" (String "l" (String "s" (String "e" r)))) =>
              Some (VBool false, r)
          | String "[" r =>
              match skip_ws r with
              | String "]" r' => Some (VList [], r')
              | _ => option_map (fun p => (VList (fst p), snd p)) (parse_elems n r)
              end
          | String "{" r =>
              match skip_ws r with
              | String "}" r' => Some (VDict [], r')
              | _ => option_map (fun p => (VDict (fst p), snd p)) (parse_members n r [])
              end
          | String c r =>
              if (nat_of_ascii c =? 34)%nat
              then option_map (fun p => (VStr (fst p), snd p)) (read_string r)
              else None
          | EmptyString => None
          end
      end
  end
with parse_elems (fuel : nat) (s : string) {struct fuel} : option (list value * string) :=
  match fuel with
  | O => None
  | S n =>
      match parse_value n s with
      | Some (v, r) =>
          match skip_ws r with
          | String "," r' =>
              option_map (fun p => (v :: fst p, snd p)) (parse_elems n r')
          | String "]" r' => Some ([v], r')
          | _ => None
          end
      | None => None
      end
  end
with parse_members (fuel : nat) (s : string) (acc : list (string * value)) {struct fuel}
  : option (list (string * value) * string) :=
  match fuel with
  | O => None
  | S n =>
      match skip_ws s with
      | String c r =>
          if (nat_of_ascii c =? 34)%nat then
            match read_string r with
            | Some (k, r1) =>
                match skip_ws r1 with
                | String ":" r2 =>
                    match parse_value n r2 with
                    | Some (v, r3) =>
                        let acc' := dict_set acc k v in
                        match skip_ws r3 with
                        | String "," r4 => parse_members n r4 acc'
                        | String "}" r4 => Some (acc', r4)
                        | _ => None
                        end
                    | None => None
                    end
                | _ => None
                end
            | None => None
            end
          else None
      | EmptyString => None
      end
  end.

(** A whole document: one value, with nothing but white space after it. *)
Definition loads_text (text : string) : option value :=
  match parse_value (2 * String.length text + 2) text with
  | Some (v, r) => if String.eqb (skip_ws r) "" then Some v else None
  | None => None
  end.

(** UTF-8 decoding onto the characters 0..255. *)
Fixpoint utf8_decode (b : list Byte.byte) : option string :=
  match b with
  | [] => Some EmptyString
  | x :: b' =>
      let n := nat_of_ascii (ascii_of_byte x) in
      if (n <? 128)%nat then
        option_map (String (ascii_of_byte x)) (utf8_decode b')
      else if ((n =? 194) || (n =? 195))%nat then
        match b' with
        | y :: b'' =>
            let m := nat_of_ascii (ascii_of_byte y) in
            if ((128 <=? m) && (m <? 192))%nat
            then option_map (String (ascii_of_nat ((n - 192) * 64 + (m - 128))))
                            (utf8_decode b'')
            else None
        | [] => None
        end
      else None
  end.

(** [json.loads] on the bytes written. *)
Definition loads (b : list Byte.byte) : option value :=
  match utf8_decode b with
  | Some text => loads_text text
  | None => None
  end.

End Reader.

(** *** What the claim about the JSON output speaks of *)

(** No float of the value is a NaN or an infinity. *)
Fixpoint all_finite (x : value) : bool :=
  match x with
  | VFloat f => PrimFloat.is_finite f
  | VList l => forallb all_finite l
  | VDict d => forallb (fun kv => all_finite (snd kv)) d
  | _ => true
  end.

(** [sanitized x y]: [y] is [x] with every non-finite float replaced by
    [None], lists and dicts being walked, and everything else left as it is. *)
Inductive sanitized : value -> value -> Prop :=
| sanitized_none : sanitized VNone VNone
| sanitized_bool b : sanitized (VBool b) (VBool b)
| sanitized_int z : sanitized (VInt z) (VInt z)
| sanitized_str s : sanitized (VStr s) (VStr s)
| sanitized_finite f :
    PrimFloat.is_finite f = true -> sanitized (VFloat f) (VFloat f)
| sanitized_nonfinite f :
    PrimFloat.is_finite f = false -> sanitized (VFloat f) VNone
| sanitized_list l l' :
    Forall2 sanitized l l' -> sanitized (VList l) (VList l')
| sanitized_dict d d' :
    Forall2 (fun kv kv' => fst kv = fst kv' /\ sanitized (snd kv) (snd kv')) d d' ->
    sanitized (VDict d) (VDict d').

(** The items of a numeric series: numbers, and [None] and booleans. *)
Definition plain (v : value) : bool :=
  match v with
  | VNone | VBool _ | VInt _ | VFloat _ => true
  | VStr _ | VList _ | VDict _ => false
  end.

(** An item as the sanitized series holds it: plain, and no NaN or infinity. *)
Definition good (v : value) : bool := plain v && all_finite v.

(** *** The text of a numeric series *)

Section SeriesText.

Variable float_repr : float -> string.

(** The text of an item that is written in one piece. *)
Definition text_of (v : value) : string :=
  match Serializer.scalar_text float_repr v with
  | Some t => t
  | None => EmptyString
  end.

(** What follows the first item of a non-empty array: the other items, each
    after a comma and the white space [w], and the closing bracket on a line
    of its own. *)
Fixpoint array_tail (w : string) (l : list value) : string :=
  match l with
  | [] => Serializer.nl ++ "  ]"
  | v :: l' => "," ++ w ++ text_of v ++ array_tail w l'
  end.

Definition array_text (w : string) (l : list value) : string :=
  match l with
  | [] => "[]"
  | v :: l' => "[" ++ w ++ text_of v ++ array_tail w l'
  end.

(** The array with its items on one line, as the compact encoder writes it,
    and with one item per line, as the plain encoder does. *)
Definition compact_array : list value -> string := array_text " ".
Definition plain_array : list value -> string := array_text (Serializer.newline_indent 2).

(** An object of three arrays, with the keys of a data dict. *)
Definition series_text (array : list value -> string) (a b c : list value) : string :=
  "{" ++ Serializer.nl ++ "  " ++ Serializer.encode_basestring "fs" ++ ": " ++ array a ++
  "," ++ Serializer.nl ++ "  " ++ Serializer.encode_basestring "samples" ++ ": " ++ array b ++
  "," ++ Serializer.nl ++ "  " ++ Serializer.encode_basestring "tstamps" ++ ": " ++ array c ++
  Serializer.nl ++ "}".

End SeriesText.

(** The value of a data dict with the three lists [a], [b] and [c]. *)
Definition series (a b c : list value) : value :=
  VDict [("fs", VList a); ("samples", VList b); ("tstamps", VList c)].


(** The text without its white space. *)
Fixpoint erase_ws (s : string) : string :=
  match s with
  | EmptyString => EmptyString
  | String c s' => if is_ws c then erase_ws s' else String c (erase_ws s')
  end.

(** The characters of the text of a numeric series: lower-case letters,
    digits, the signs, point and exponent of numbers, the punctuation of
    JSON, the quote, the space and the newline. *)
Definition out_char (c : ascii) : bool :=
  let n := nat_of_ascii c in
  ((97 <=? n) && (n <=? 122) || (48 <=? n) && (n <=? 57)
   || (n =? 45) || (n =? 43) || (n =? 46) || (n =? 69)
   || (n =? 123) || (n =? 125) || (n =? 91) || (n =? 93) || (n =? 44) || (n =? 58)
   || (n =? 34) || (n =? 32) || (n =? 10))%nat.

Definition not_newline (c : ascii) : bool := negb (nat_of_ascii c =? 10)%nat.

(** The characters of the text of an item. *)
Definition item_char (c : ascii) : bool :=
  let n := nat_of_ascii c in
  ((97 <=? n) && (n <=? 122) || (48 <=? n) && (n <=? 57)
   || (n =? 45) || (n =? 43) || (n =? 46) || (n =? 69))%nat.

End Json.

(** ** Sample records *)

Module Sample.

Definition floats (l : list float) : value := VList (map VFloat l).

(** One sample at 4 Hz starting at 10.000 s, 10.500 s and 9.800 s. *)
Definition seg_10_0 : value :=
  record_of "eda" (block (VFloat 4) (VInt 10000000) (floats [1%float])).
Definition seg_10_5 : value :=
  record_of "eda" (block (VFloat 4) (VInt 10500000) (floats [2%float])).
Definition seg_9_8 : value :=
  record_of "eda" (block (VFloat 4) (VInt 9800000) (floats [3%float])).

(** Five samples at 4 Hz starting at 0. *)
Definition seg_five : value :=
  record_of "eda"
    (block (VFloat 4) (VInt 0) (floats [1%float; 2%float; 3%float; 4%float; 5%float])).

(** A block with a zero, a negative and no sampling frequency, and an empty
    block. *)
Definition seg_zero_freq : value :=
  record_of "eda" (block (VFloat 0) (VInt 0) (floats [1%float])).
Definition seg_neg_freq : value :=
  record_of "eda" (block (VFloat (-4)) (VInt 0) (floats [1%float])).
Definition seg_other_measure : value :=
  record_of "bvp" (block (VFloat 64) (VInt 0) (floats [1%float])).
Definition seg_empty : value :=
  record_of "eda" (block (VFloat 4) (VInt 11000000) (floats [])).

(** The accumulators after [seg_10_0]. *)
Definition after_10_0 : acc := extract_step "eda" acc0 0 seg_10_0.

(** Stand-ins for the library calls of the serializer. *)
Definition float_repr (f : float) : string := "0.0".
Definition pickle_dumps (v : value) : list Byte.byte := [].
Definition frame_to_csv (tstamps samples : value) : result string := Ok "tstamps,samples".

Definition series : value :=
  data_dict_value (mkDataDict [VFloat 4] [VFloat 1] [10%float]).

End Sample.

(** ** What the further properties of the extractor speak of *)

(** The positions that the reported failures carry. *)
Definition error_indices (l : list event) : list nat :=
  flat_map (fun e => match e with StError _ i _ => [i] | _ => [] end) l.

(** The positions, counted from [file_idx], of the records that do not pass. *)
Fixpoint failing_indices (measure : string) (file_idx : nat) (raws : list value)
  : list nat :=
  match raws with
  | [] => []
  | raw :: rest =>
      (if passes raw measure then [] else [file_idx]) ++
      failing_indices measure (S file_idx) rest
  end.

(** The values and the frequency that a passing record holds for the measure. *)
Definition passing_items (measure : string) (raw : value) : list value :=
  if passes raw measure then
    match measure_field raw measure "values" with
    | Ok meas_data =>
        match py_iter meas_data with
        | Ok items => items
        | Raise _ => []
        end
    | Raise _ => []
    end
  else [].

Definition passing_freq (measure : string) (raw : value) : list value :=
  if passes raw measure then
    match measure_field raw measure "samplingFrequency" with
    | Ok sampfreq => [sampfreq]
    | Raise _ => []
    end
  else [].

(** ** What the further properties of the ordering speak of *)

Fixpoint last_char (s : string) : option ascii :=
  match s with
  | EmptyString => None
  | String c EmptyString => Some c
  | String _ s' => last_char s'
  end.

(** The records of a file that can be read, and none for one that cannot. *)
Definition records_of (reader : list Byte.byte -> result (list value))
    (f : Ordering.uploaded_file) : list value :=
  match reader (Ordering.getvalue f) with
  | Ok records => records
  | Raise _ => []
  end.

(** ** What the further properties of the serializer speak of *)

(** [s[n:]] *)
Fixpoint string_drop (n : nat) (s : string) : string :=
  match n, s with
  | O, _ => s
  | S k, String _ s' => string_drop k s'
  | S _, EmptyString => EmptyString
  end.

(** ** What the claim about the spelling of the format speaks of *)

(** [c] spells the lower-case letter [k]: it is [k] or the ASCII capital of
    [k]. *)
Definition spells_char (k c : ascii) : bool :=
  Ascii.eqb c k ||
  ((65 <=? nat_of_ascii c) && (nat_of_ascii c <=? 90) &&
   (nat_of_ascii c + 32 =? nat_of_ascii k))%nat.

(** [s] is the name [canonical] in some mix of upper and lower case. *)
Fixpoint spells (canonical s : string) : bool :=
  match canonical, s with
  | EmptyString, EmptyString => true
  | String k canonical', String c s' => spells_char k c && spells canonical' s'
  | _, _ => false
  end.

(** Nothing but white space. *)
Definition blank (s : string) : bool := Json.all_chars Serializer.is_space s.

(** ** A text for floats that reads back *)

(** [float.__repr__] and [float] enter the properties of the JSON output
    through two facts only: the text of a finite float is a number literal
    with a point or an exponent, and reading it gives the float back.  The
    pair below has both: the text is the sign, the mantissa and the binary
    exponent in decimal, with an [e] between the last two. *)
Module FloatText.

Local Open Scope string_scope.

Definition sign_text (s : bool) : string := if s then "-" else "".

Definition float_repr (f : float) : string :=
  match Prim2SF f with
  | S754_finite s m e =>
      sign_text s ++ NilEmpty.string_of_uint (Pos.to_uint m) ++ "e" ++
      NilZero.string_of_int (Z.to_int e)
  | S754_zero s => sign_text s ++ "0e0"
  | S754_infinity _ | S754_nan => "0e0"
  end.

Definition strip_sign (t : string) : bool * string :=
  match t with
  | String "-" r => (true, r)
  | _ => (false, t)
  end.

(** What is in front of the first [e], and what is after it. *)
Fixpoint split_e (s : string) : string * string :=
  match s with
  | EmptyString => (EmptyString, EmptyString)
  | String c s' =>
      if Ascii.eqb c "e" then (EmptyString, s')
      else let (a, b) := split_e s' in (String c a, b)
  end.

Definition float_of_text (t : string) : option float :=
  let (s, body) := strip_sign t in
  let (ms, es) := split_e body in
  match NilEmpty.uint_of_string ms, NilZero.int_of_string es with
  | Some m, Some e =>
      Some (SF2Prim (match Pos.of_uint m with
                     | N0 => S754_zero s
                     | Npos p => S754_finite s p (Z.of_int e)
                     end))
  | _, _ => None
  end.

End FloatText.

(** * Facts about strings *)

Ltac each_char c := destruct c as [[] [] [] [] [] [] [] []].

Lemma append_nil_r (s : string) : (s ++ "")%string = s.
Proof. induction s as [|c s IH]; simpl; [reflexivity | now rewrite IH]. Qed.

Lemma append_assoc (a b c : string) : ((a ++ b) ++ c = a ++ (b ++ c))%string.
Proof. induction a as [|x a IH]; simpl; [reflexivity | now rewrite IH]. Qed.

Lemma length_append (a b : string) :
  String.length (a ++ b)%string = (String.length a + String.length b)%nat.
Proof. induction a as [|x a IH]; simpl; [reflexivity | now rewrite IH]. Qed.

(** * Facts about binary64 arithmetic *)

Lemma finite_cases (w : float) :
  PrimFloat.is_finite w = true ->
  (exists sg, Prim2SF w = S754_zero sg) \/ (exists sg m e, Prim2SF w = S754_finite sg m e).
Proof.
  unfold PrimFloat.is_finite, PrimFloat.is_nan, PrimFloat.is_infinity.
  rewrite !eqb_spec, abs_spec.
  destruct (Prim2SF w) as [sg|sg| |sg m e]; simpl.
  - intros _. left. now exists sg.
  - rewrite orb_true_r. discriminate.
  - discriminate.
  - intros _. right. now exists sg, m, e.
Qed.

Lemma mul_zero_finite (w : float) :
  PrimFloat.is_finite w = true -> exists sg, Prim2SF (PrimFloat.mul 0%float w) = S754_zero sg.
Proof.
  intros H. rewrite mul_spec.
  change (Prim2SF 0%float) with (S754_zero false).
  destruct (finite_cases w H) as [[sg ->] | (sg & m & e & ->)]; simpl; eauto.
Qed.

Lemma add_zero_l (z x : float) (sg : bool) :
  Prim2SF z = S754_zero sg ->
  PrimFloat.is_finite x = true ->
  PrimFloat.is_zero x && PrimFloat.get_sign x = false ->
  PrimFloat.add z x = x.
Proof.
  intros Hz Hx Hnz. apply Prim2SF_inj. rewrite add_spec, Hz.
  destruct (finite_cases x Hx) as [[sx Ex] | (sx & m & e & Ex)]; rewrite Ex.
  - destruct sx.
    + exfalso. revert Hnz. unfold PrimFloat.is_zero, PrimFloat.get_sign, PrimFloat.is_zero.
      rewrite !eqb_spec, Ex. simpl.
      rewrite ltb_spec, div_spec, Ex. vm_compute. discriminate.
    + destruct sg; reflexivity.
  - reflexivity.
Qed.

(** * Properties of the signal extractor *)

Section ExtractorFacts.

Variable measure : string.

Lemma chars_length (s : string) : List.length (chars s) = String.length s.
Proof. induction s as [|c s IH]; simpl; [reflexivity | now rewrite IH]. Qed.

Lemma py_len_iter (x : value) (items : list value) :
  py_iter x = Ok items -> py_len x = Ok (List.length items).
Proof.
  destruct x; simpl; try discriminate; intros H; inversion H; subst; clear H.
  - now rewrite chars_length.
  - reflexivity.
  - now rewrite length_map.
Qed.

(** The effect of one loop iteration on a record whose [try] body runs to
    its end. *)
Lemma extract_step_segment (s : acc) (file_idx : nat) (raw sampfreq : value)
    (items : list value) (start_s q : float) :
  segment raw measure sampfreq items start_s q ->
  extract_step measure s file_idx raw =
    mkAcc (fs_combine s ++ [sampfreq])
          (data_combine s ++ items)
          (tstamp_combine s ++
             Num.linspace start_s (PrimFloat.add start_s q) (List.length items))
          (messages s ++ gap_messages s file_idx start_s).
Proof.
  intros (meas_data & meas_start & Hf & Hv & Hi & Ht & Hs & Hq).
  unfold extract_step, extract_body, bind, lift, fs_append, data_extend,
    get_tstamps, tstamp_extend, emit, ret, gap_messages.
  rewrite Hf, Hv, Ht. simpl. rewrite Hi. simpl.
  rewrite Hs, (py_len_iter _ _ Hi), Hq. simpl.
  destruct (tstamp_combine s) as [|t0 ts]; simpl.
  - now rewrite app_nil_r.
  - reflexivity.
Qed.

(** The effect of one loop iteration on a record without a frequency for the
    measure: only the failure is reported. *)
Lemma extract_step_freq_missing (s : acc) (file_idx : nat) (raw : value) :
  freq_missing raw measure = true ->
  exists e,
    extract_step measure s file_idx raw =
      mkAcc (fs_combine s) (data_combine s) (tstamp_combine s)
            (messages s ++ [StError measure file_idx e]).
Proof.
  unfold freq_missing, extract_step, extract_body, bind, lift.
  destruct (measure_field raw measure "samplingFrequency") as [v|e]; simpl;
    [discriminate|].
  intros _. now exists e.
Qed.

Lemma passes_segment (raw : value) :
  passes raw measure = true ->
  exists sampfreq items start_s q, segment raw measure sampfreq items start_s q.
Proof.
  unfold passes, segment.
  destruct (measure_field raw measure "samplingFrequency") as [f|] eqn:Hf; [|discriminate].
  destruct (measure_field raw measure "values") as [vs|] eqn:Hv; [|discriminate].
  destruct (measure_field raw measure "timestampStart") as [t|] eqn:Ht; [|discriminate].
  destruct (py_iter vs) as [items|] eqn:Hi; [|discriminate].
  destruct (Num.truediv t (VFloat 1e6%float)) as [start_s|] eqn:Hs; [|discriminate].
  destruct (Num.truediv (VInt (Z.of_nat (List.length items) - 1)) f) as [q|] eqn:Hq;
    [|discriminate].
  intros _. exists f, items, start_s, q, vs, t. repeat split; assumption.
Qed.

Lemma segment_passes (raw sampfreq : value) (items : list value) (start_s q : float) :
  segment raw measure sampfreq items start_s q -> passes raw measure = true.
Proof.
  intros (meas_data & meas_start & Hf & Hv & Hi & Ht & Hs & Hq).
  unfold passes. now rewrite Hf, Hv, Ht, Hi, Hs, Hq.
Qed.

Lemma linspace_length (start stop : float) (num : nat) :
  List.length (Num.linspace start stop num) = num.
Proof.
  unfold Num.linspace.
  set (y := map _ (match _ with true => _ | false => _ end)).
  assert (Hy : List.length y = num).
  { subst y. rewrite length_map.
    destruct (0 <? Z.of_nat num - 1)%Z;
      [destruct (PrimFloat.eqb _ _)|]; now rewrite !length_map, length_seq. }
  destruct (1 <? num)%nat eqn:Hn; [|assumption].
  apply Nat.ltb_lt in Hn.
  rewrite length_app, removelast_firstn_len, length_firstn. simpl. lia.
Qed.

End ExtractorFacts.

(** ** The loop *)

Lemma freq_missing_not_passes (measure : string) (raw : value) :
  freq_missing raw measure = true -> passes raw measure = false.
Proof.
  unfold freq_missing, passes.
  destruct (measure_field raw measure "samplingFrequency"); simpl;
    [discriminate | reflexivity].
Qed.

(** On records that either lack the frequency or pass, the loop keeps the
    samples and the timestamps aligned and counts the passing records in
    [fs]. *)
Lemma extract_loop_clean (measure : string) (raw_datas : list value) :
  forall (s : acc) (file_idx : nat),
  Forall (clean measure) raw_datas ->
  let s' := extract_loop measure s file_idx raw_datas in
  List.length (fs_combine s') =
    (List.length (fs_combine s) +
     List.length (filter (fun r => passes r measure) raw_datas))%nat /\
  (List.length (data_combine s) = List.length (tstamp_combine s) ->
   List.length (data_combine s') = List.length (tstamp_combine s')).
Proof.
  induction raw_datas as [|raw rest IH]; intros s file_idx Hall; simpl.
  - split; [lia | trivial].
  - inversion Hall as [|? ? Hraw Hrest]; subst.
    specialize (IH (extract_step measure s file_idx raw) (S file_idx) Hrest).
    destruct IH as [IHfs IHlen].
    destruct Hraw as [Hmiss | Hpass].
    + rewrite (freq_missing_not_passes _ _ Hmiss).
      destruct (extract_step_freq_missing measure s file_idx raw Hmiss) as [e He].
      rewrite He in *. simpl in *. split; [lia | exact IHlen].
    + rewrite Hpass.
      destruct (passes_segment measure raw Hpass) as (f & items & start_s & q & Hseg).
      rewrite (extract_step_segment measure s file_idx raw f items start_s q Hseg) in *.
      simpl in *. rewrite !length_app in *. simpl in *.
      rewrite linspace_length in IHlen. split; [lia | intros H; apply IHlen; lia].
Qed.

(** ** The grid of [np.linspace] *)

Lemma nth_map_seq (f : nat -> float) (i n : nat) (d : float) :
  (i < n)%nat -> nth i (map f (seq 0 n)) d = f i.
Proof.
  intros H. rewrite (nth_indep _ d (f 0%nat)) by now rewrite length_map, length_seq.
  rewrite map_nth, seq_nth by assumption. reflexivity.
Qed.

Lemma nth_removelast (l : list float) (i : nat) (d : float) :
  (i + 1 < List.length l)%nat -> nth i (removelast l) d = nth i l d.
Proof.
  intros H. rewrite removelast_firstn_len, nth_firstn.
  destruct (i <? Nat.pred (List.length l))%nat eqn:E; [reflexivity|].
  apply Nat.ltb_ge in E. lia.
Qed.

(** With two points or more the grid ends exactly at [stop]. *)
Lemma linspace_last (start stop : float) (num : nat) (d : float) :
  (2 <= num)%nat -> last (Num.linspace start stop num) d = stop.
Proof.
  intros H. unfold Num.linspace.
  destruct (1 <? num)%nat eqn:E; [apply last_last|].
  apply Nat.ltb_ge in E. lia.
Qed.

(** Before its last point, a regular grid is [i * step + start]. *)
Lemma linspace_nth (start stop : float) (num i : nat) :
  regular_grid start stop num = true ->
  (i + 1 < num)%nat ->
  nth i (Num.linspace start stop num) 0%float =
    PrimFloat.add
      (PrimFloat.mul (Num.of_nat i)
         (PrimFloat.div (PrimFloat.sub stop start) (Num.of_Z (Z.of_nat num - 1))))
      start.
Proof.
  intros Hreg Hi. unfold regular_grid in Hreg. unfold Num.linspace.
  assert (H1 : (1 <? num)%nat = true) by (apply Nat.ltb_lt; lia).
  assert (H0 : (0 <? Z.of_nat num - 1)%Z = true) by (apply Z.ltb_lt; lia).
  rewrite H1 in *. rewrite H0.
  apply andb_prop in Hreg as [_ Hstep]. apply andb_prop in Hstep as [_ Hnz].
  apply negb_true_iff in Hnz. rewrite Hnz.
  rewrite app_nth1 by (rewrite removelast_firstn_len, length_firstn, !length_map, length_seq; lia).
  rewrite nth_removelast by (rewrite !length_map, length_seq; lia).
  rewrite !map_map. rewrite nth_map_seq by lia. reflexivity.
Qed.

(** A regular grid starts exactly at [start]. *)
Lemma linspace_first (start stop : float) (num : nat) :
  regular_grid start stop num = true ->
  (1 <= num)%nat ->
  nth 0 (Num.linspace start stop num) 0%float = start.
Proof.
  intros Hreg Hn.
  assert (Hfin : PrimFloat.is_finite start = true /\
                 PrimFloat.is_zero start && PrimFloat.get_sign start = false).
  { unfold regular_grid in Hreg. apply andb_prop in Hreg as [H _].
    apply andb_prop in H as [H1 H2]. now apply negb_true_iff in H2. }
  destruct Hfin as [Hfin Hnz].
  destruct (Nat.eq_dec num 1) as [-> | Hne].
  - unfold regular_grid in Hreg. simpl in Hreg.
    apply andb_prop in Hreg as [_ Hdelta].
    unfold Num.linspace. simpl.
    change (Num.of_nat 0) with 0%float.
    destruct (mul_zero_finite _ Hdelta) as [sg Hz].
    now apply (add_zero_l _ _ sg).
  - rewrite linspace_nth by (assumption || lia).
    change (Num.of_nat 0) with 0%float.
    unfold regular_grid in Hreg.
    assert (H1 : (1 <? num)%nat = true) by (apply Nat.ltb_lt; lia).
    rewrite H1 in Hreg.
    apply andb_prop in Hreg as [_ Hstep]. apply andb_prop in Hstep as [Hstep _].
    destruct (mul_zero_finite _ Hstep) as [sg Hz].
    now apply (add_zero_l _ _ sg).
Qed.

(** * The claims about the signal extractor *)

(** C1.  The samples and the timestamps of the returned series do not always
    have the same length: on a block with frequency zero and one value, the
    value is appended before the division raises, and no timestamp follows. *)
Theorem extract_lengths_differ_on_zero_freq :
  let d := extract_signal_streamlit [Sample.seg_zero_freq] "eda" in
  fs d = [VFloat 0] /\
  List.length (samples d) = 1%nat /\
  List.length (tstamps d) = 0%nat /\
  messages (extract_run [Sample.seg_zero_freq] "eda") =
    [StError "eda" 0 ZeroDivisionError; StSuccess "eda" 1].
Proof. vm_compute. repeat split. Qed.

(** C2, as stated, fails: a block with a negative sampling frequency is not
    skipped; its frequency, values and timestamps are appended. *)
Lemma negative_freq_not_skipped :
  nonpositive (VFloat (-4)) = true /\
  ~ (let d := extract_signal_streamlit [Sample.seg_neg_freq] "eda" in
     fs d = [] /\ samples d = [] /\ tstamps d = []).
Proof.
  split; [reflexivity|].
  vm_compute. intros (H & _). discriminate H.
Qed.

(** C2, amended.  A record whose frequency cannot be read appends nothing; a
    record that passes is appended whole, whatever the sign of its frequency;
    and when every record is of one of these two kinds, [fs] has one entry
    per record that passed. *)
Theorem extract_all_or_nothing (measure : string) (raw_datas : list value) :
  Forall (clean measure) raw_datas ->
  (forall s file_idx raw,
     freq_missing raw measure = true ->
     let s' := extract_step measure s file_idx raw in
     fs_combine s' = fs_combine s /\
     data_combine s' = data_combine s /\
     tstamp_combine s' = tstamp_combine s) /\
  (forall s file_idx raw sampfreq items start_s q,
     segment raw measure sampfreq items start_s q ->
     let s' := extract_step measure s file_idx raw in
     fs_combine s' = fs_combine s ++ [sampfreq] /\
     data_combine s' = data_combine s ++ items /\
     List.length (tstamp_combine s') =
       (List.length (tstamp_combine s) + List.length items)%nat) /\
  List.length (fs (extract_signal_streamlit raw_datas measure)) =
    List.length (filter (fun r => passes r measure) raw_datas).
Proof.
  intros Hclean. split; [|split].
  - intros s file_idx raw Hmiss.
    destruct (extract_step_freq_missing measure s file_idx raw Hmiss) as [e He].
    cbv zeta. rewrite He. simpl. auto.
  - intros s file_idx raw sampfreq items start_s q Hseg.
    cbv zeta. rewrite (extract_step_segment measure s file_idx raw _ _ _ _ Hseg).
    simpl. rewrite length_app, linspace_length. auto.
  - unfold extract_signal_streamlit, extract_run. simpl.
    now destruct (extract_loop_clean measure raw_datas acc0 0 Hclean) as [-> _].
Qed.

Lemma extract_all_or_nothing_witness :
  List.length
    (fs (extract_signal_streamlit
           [Sample.seg_other_measure; Sample.seg_neg_freq; Sample.seg_10_0] "eda")) = 2%nat.
Proof.
  refine (eq_trans
    (proj2 (proj2 (extract_all_or_nothing "eda"
       [Sample.seg_other_measure; Sample.seg_neg_freq; Sample.seg_10_0] _))) _).
  - apply Forall_cons; [left; reflexivity|].
    apply Forall_cons; [right; reflexivity|].
    apply Forall_cons; [right; reflexivity|]. apply Forall_nil.
  - vm_compute. reflexivity.
Defined.

(** C3, as stated, fails: the reported gap is not the previous last timestamp
    minus the new start.  After a segment ending at 10.0 the segment starting
    at 10.5 is reported with the gap 0.5, not -0.5. *)
Lemma gap_is_not_previous_minus_start :
  let run := extract_run [Sample.seg_10_0; Sample.seg_10_5] "eda" in
  last (tstamp_combine Sample.after_10_0) 0%float = 10%float /\
  ~ In (StInfoGap 1 2 (Num.round3 (PrimFloat.sub 10%float 10.5%float))) (messages run).
Proof.
  split; [vm_compute; reflexivity|].
  vm_compute. intros [H | [H | []]]; [|discriminate H].
  apply (f_equal (fun e => match e with
                           | StInfoGap _ _ g => PrimFloat.ltb g 0%float
                           | _ => false
                           end)) in H.
  vm_compute in H. discriminate H.
Qed.

(** C3, amended.  A segment processed while timestamps have been accumulated
    is reported through [st.info], with the gap from the last accumulated
    timestamp to its start, [start_s - tstamp_combine[-1]], rounded to three
    decimals; no error is reported for it.  A segment processed before any
    timestamp has been accumulated reports nothing. *)
Theorem gap_reported (measure : string) (s : acc) (file_idx : nat) (raw sampfreq : value)
    (items : list value) (start_s q : float) :
  segment raw measure sampfreq items start_s q ->
  let s' := extract_step measure s file_idx raw in
  (tstamp_combine s <> [] ->
   messages s' =
     messages s ++
     [StInfoGap file_idx (file_idx + 1)
        (Num.round3 (PrimFloat.sub start_s (last (tstamp_combine s) 0%float)))]) /\
  (tstamp_combine s = [] -> messages s' = messages s).
Proof.
  intros Hseg. cbv zeta.
  rewrite (extract_step_segment measure s file_idx raw _ _ _ _ Hseg). simpl.
  unfold gap_messages. split; intros H.
  - destruct (tstamp_combine s); [contradiction | reflexivity].
  - rewrite H. apply app_nil_r.
Qed.

Lemma sample_segment_10_5 :
  segment Sample.seg_10_5 "eda" (VFloat 4) [VFloat 2] 10.5%float 0%float.
Proof.
  exists (Sample.floats [2%float]), (VInt 10500000).
  repeat split; vm_compute; reflexivity.
Defined.

Lemma sample_segment_9_8 :
  segment Sample.seg_9_8 "eda" (VFloat 4) [VFloat 3] 9.8%float 0%float.
Proof.
  exists (Sample.floats [3%float]), (VInt 9800000).
  repeat split; vm_compute; reflexivity.
Defined.

Lemma gap_reported_witness :
  messages (extract_step "eda" Sample.after_10_0 1 Sample.seg_10_5) =
    [StInfoGap 1 2 0.5%float].
Proof.
  refine (eq_trans
    (proj1 (gap_reported "eda" Sample.after_10_0 1 Sample.seg_10_5 _ _ _ _
              sample_segment_10_5) _) _).
  - vm_compute. discriminate.
  - vm_compute. reflexivity.
Defined.

(** C4.  After a segment whose last timestamp is 10.000 s, a segment starting
    at 10.500 s is reported with the gap 0.5, and one starting at 9.800 s
    with the gap -0.2. *)
Theorem gap_sign_and_magnitude (measure : string) (s : acc) (file_idx : nat)
    (raw sampfreq : value) (items : list value) (q : float) (earlier : list float) :
  tstamp_combine s = earlier ++ [10%float] ->
  (segment raw measure sampfreq items 10.5%float q ->
   messages (extract_step measure s file_idx raw) =
     messages s ++ [StInfoGap file_idx (file_idx + 1) 0.5%float]) /\
  (segment raw measure sampfreq items 9.8%float q ->
   messages (extract_step measure s file_idx raw) =
     messages s ++ [StInfoGap file_idx (file_idx + 1) (-0.2)%float]).
Proof.
  intros Hts.
  assert (Hne : tstamp_combine s <> []).
  { rewrite Hts. destruct earlier; discriminate. }
  assert (Hlast : last (tstamp_combine s) 0%float = 10%float).
  { rewrite Hts. apply last_last. }
  split; intros Hseg;
    rewrite (extract_step_segment measure s file_idx raw _ _ _ _ Hseg); simpl;
    unfold gap_messages; rewrite Hlast;
    (destruct (tstamp_combine s); [contradiction | reflexivity]).
Qed.

Lemma gap_sign_and_magnitude_witness :
  messages (extract_step "eda" Sample.after_10_0 1 Sample.seg_10_5) =
    [StInfoGap 1 2 0.5%float] /\
  messages (extract_step "eda" Sample.after_10_0 1 Sample.seg_9_8) =
    [StInfoGap 1 2 (-0.2)%float].
Proof.
  split.
  - exact (proj1 (gap_sign_and_magnitude "eda" Sample.after_10_0 1 Sample.seg_10_5
                    (VFloat 4) [VFloat 2] 0%float [] eq_refl) sample_segment_10_5).
  - exact (proj2 (gap_sign_and_magnitude "eda" Sample.after_10_0 1 Sample.seg_9_8
                    (VFloat 4) [VFloat 3] 0%float [] eq_refl) sample_segment_9_8).
Defined.

Lemma sample_segment_five :
  segment Sample.seg_five "eda" (VFloat 4)
    (map VFloat [1%float; 2%float; 3%float; 4%float; 5%float]) 0%float 1%float.
Proof.
  exists (Sample.floats [1%float; 2%float; 3%float; 4%float; 5%float]), (VInt 0).
  repeat split; vm_compute; reflexivity.
Defined.

(** C5.  A segment with [n >= 1] values appends exactly [n] timestamps.  They
    end at [end_s = start_s + (n - 1) / fs] when there are two or more; on a
    regular grid they start at [start_s], a single one is [start_s] itself,
    and the one of index [i] is [start_s] plus [i] times the common step
    [(end_s - start_s) / (n - 1)], each operation rounded to binary64.  At
    4 Hz from 0, five values give [0, 0.25, 0.5, 0.75, 1]. *)
Theorem timestamps_evenly_spaced (measure : string) (s : acc) (file_idx : nat)
    (raw sampfreq : value) (items : list value) (start_s q : float) :
  segment raw measure sampfreq items start_s q ->
  (1 <= List.length items)%nat ->
  let n := List.length items in
  let end_s := PrimFloat.add start_s q in
  let step := PrimFloat.div (PrimFloat.sub end_s start_s) (Num.of_Z (Z.of_nat n - 1)) in
  exists grid,
    tstamp_combine (extract_step measure s file_idx raw) = tstamp_combine s ++ grid /\
    List.length grid = n /\
    ((2 <= n)%nat -> last grid 0%float = end_s) /\
    (regular_grid start_s end_s n = true ->
     nth 0 grid 0%float = start_s /\
     (n = 1%nat -> grid = [start_s]) /\
     (forall i, (i + 1 < n)%nat ->
        nth i grid 0%float = PrimFloat.add (PrimFloat.mul (Num.of_nat i) step) start_s)) /\
    (sampfreq = VFloat 4 -> start_s = 0%float -> n = 5%nat ->
     grid = [0%float; 0.25%float; 0.5%float; 0.75%float; 1%float]).
Proof.
  intros Hseg Hn n end_s step.
  exists (Num.linspace start_s end_s n).
  rewrite (extract_step_segment measure s file_idx raw _ _ _ _ Hseg). simpl.
  split; [reflexivity|]. split; [apply linspace_length|].
  split; [apply linspace_last|]. split.
  - intros Hreg. split; [now apply linspace_first|]. split.
    + intros H1.
      pose proof (linspace_first start_s end_s n Hreg Hn) as Hfirst.
      pose proof (linspace_length start_s end_s n) as Hlen.
      destruct (Num.linspace start_s end_s n) as [|a [|b l]]; simpl in *; try lia.
      now rewrite Hfirst.
    + intros i Hi. now apply linspace_nth.
  - intros Hf Hs H5.
    destruct Hseg as (meas_data & meas_start & _ & _ & _ & _ & _ & Hq).
    subst end_s. fold n in Hq. rewrite Hf, H5 in Hq. rewrite Hs, H5.
    vm_compute in Hq.
    apply (f_equal (fun r => match r with Ok x => x | Raise _ => q end)) in Hq.
    subst q. vm_compute. reflexivity.
Qed.

Lemma timestamps_evenly_spaced_witness :
  exists grid,
    tstamp_combine (extract_step "eda" acc0 0 Sample.seg_five) = grid /\
    List.length grid = 5%nat /\ last grid 0%float = 1%float.
Proof.
  destruct (timestamps_evenly_spaced "eda" acc0 0 Sample.seg_five _ _ _ _
              sample_segment_five (Nat.lt_0_succ 4))
    as (grid & H1 & H2 & H3 & _).
  exists grid. split; [exact H1|]. split; [exact H2|].
  apply H3. vm_compute. repeat constructor.
Defined.

(** C9.  A block with no values, a non-zero frequency and an integer start
    that converts to a float is processed without failure: its frequency is
    appended to [fs], nothing is appended to the samples or to the
    timestamps, and no error is reported. *)
Theorem empty_segment_keeps_frequency (measure : string) (s : acc) (file_idx : nat)
    (raw : value) (sampfreq : float) (t : Z) (ft : float) :
  measure_field raw measure "samplingFrequency" = Ok (VFloat sampfreq) ->
  measure_field raw measure "values" = Ok (VList []) ->
  measure_field raw measure "timestampStart" = Ok (VInt t) ->
  PrimFloat.eqb sampfreq 0%float = false ->
  Num.float_of_int t = Ok ft ->
  let s' := extract_step measure s file_idx raw in
  fs_combine s' = fs_combine s ++ [VFloat sampfreq] /\
  data_combine s' = data_combine s /\
  tstamp_combine s' = tstamp_combine s /\
  exists info,
    messages s' = messages s ++ info /\
    forallb (fun e => negb (is_error e)) info = true.
Proof.
  intros Hf Hv Ht Hnz Hft.
  assert (Hseg : segment raw measure (VFloat sampfreq) []
                   (PrimFloat.div ft 1e6%float)
                   (PrimFloat.div (-1)%float sampfreq)).
  { exists (VList []), (VInt t). repeat split; try assumption.
    - unfold Num.truediv. simpl. rewrite Hft. reflexivity.
    - unfold Num.truediv. simpl.
      change (Num.float_of_int (-1)) with (Ok (-1)%float). simpl.
      unfold Num.float_truediv. now rewrite Hnz. }
  cbv zeta. rewrite (extract_step_segment measure s file_idx raw _ _ _ _ Hseg). simpl.
  rewrite !app_nil_r. repeat split.
  exists (gap_messages s file_idx (PrimFloat.div ft 1e6%float)). split; [reflexivity|].
  unfold gap_messages. now destruct (tstamp_combine s).
Qed.

Lemma empty_segment_keeps_frequency_witness :
  let s' := extract_step "eda" Sample.after_10_0 1 Sample.seg_empty in
  fs_combine s' = [VFloat 4; VFloat 4] /\
  data_combine s' = [VFloat 1] /\
  tstamp_combine s' = [10%float].
Proof.
  destruct (empty_segment_keeps_frequency "eda" Sample.after_10_0 1 Sample.seg_empty
              4%float 11000000 11000000%float eq_refl eq_refl eq_refl eq_refl eq_refl)
    as (H1 & H2 & H3 & _).
  cbv zeta. rewrite H1, H2, H3. vm_compute. repeat split.
Defined.

(** * Properties of the segment ordering *)

Module OrderingFacts.
Import Ordering.

Local Open Scope string_scope.

(** ** The regular expression *)

Lemma take_digits_sound (n : nat) :
  forall s d rest,
  take_digits n s = Some (d, rest) ->
  s = d ++ rest /\ String.length d = n /\ all_digits d = true.
Proof.
  induction n as [|n IH]; intros s d rest; simpl.
  - intros H. inversion H; subst. auto.
  - destruct s as [|c s]; [discriminate|].
    destruct (is_digit c) eqn:Hc; [|discriminate].
    destruct (take_digits n s) as [[d' rest']|] eqn:Ht; [|discriminate].
    intros H. inversion H; subst.
    destruct (IH _ _ _ Ht) as (-> & Hl & Hd).
    simpl. rewrite Hc, Hd, Hl. auto.
Qed.

Lemma take_digits_complete (d rest : string) :
  all_digits d = true ->
  take_digits (String.length d) (d ++ rest) = Some (d, rest).
Proof.
  induction d as [|c d IH]; simpl; [reflexivity|].
  intros H. apply andb_prop in H as [Hc Hd].
  now rewrite Hc, (IH Hd).
Qed.

Lemma take_digits_spec (n : nat) (s d rest : string) :
  take_digits n s = Some (d, rest) <->
  s = d ++ rest /\ String.length d = n /\ all_digits d = true.
Proof.
  split; [apply take_digits_sound|].
  intros (-> & <- & Hd). now apply take_digits_complete.
Qed.

Lemma lookahead_avro_spec (s : string) :
  lookahead_avro s = true <-> s = ".avro" \/ s = ".avro" ++ String newline "".
Proof.
  split.
  - unfold lookahead_avro.
    repeat (let c := fresh "c" in
            destruct s as [|c s]; [discriminate|];
            destruct c as [[] [] [] [] [] [] [] []]; try discriminate).
    unfold at_dollar. intros H. apply orb_prop in H as [H | H];
      apply String.eqb_eq in H; subst; auto.
  - intros [-> | ->]; reflexivity.
Qed.

Lemma match_here_spec (s d : string) :
  match_here s = Some d <->
  String.length d = 10%nat /\ all_digits d = true /\
  (s = d ++ ".avro" \/ s = d ++ ".avro" ++ String newline "").
Proof.
  unfold match_here. split.
  - destruct (take_digits 10 s) as [[d' rest]|] eqn:Ht; [|discriminate].
    destruct (lookahead_avro rest) eqn:Hl; [|discriminate].
    intros H. inversion H; subst.
    apply take_digits_spec in Ht as (-> & Hlen & Hd).
    apply lookahead_avro_spec in Hl. repeat split; try assumption.
    destruct Hl as [-> | ->]; auto.
  - intros (Hlen & Hd & Hs).
    assert (Ht : exists rest, s = d ++ rest /\ lookahead_avro rest = true).
    { destruct Hs as [-> | ->]; eexists; split; reflexivity. }
    destruct Ht as (rest & -> & Hl).
    assert (Ht : take_digits 10 (d ++ rest) = Some (d, rest)).
    { apply take_digits_spec. auto. }
    now rewrite Ht, Hl.
Qed.

(** A match at the head of [s] leaves no room for another one further on. *)
Lemma match_here_unique (c : ascii) (p rest d d' : string) :
  match_here rest = Some d ->
  match_here (String c (p ++ rest)) = Some d' ->
  False.
Proof.
  intros H H'.
  apply match_here_spec in H as (Hl & _ & Hs).
  apply match_here_spec in H' as (Hl' & _ & Hs').
  assert (Hlen : String.length (String c (p ++ rest)) =
                 S (String.length p + String.length rest)).
  { simpl. now rewrite length_append. }
  assert (Hp : p = "" /\ rest = d ++ ".avro" /\
               String c (p ++ rest) = d' ++ ".avro" ++ String newline "").
  { destruct Hs as [-> | ->], Hs' as [Hs' | Hs']; rewrite Hs' in Hlen;
      rewrite !length_append in Hlen; simpl in Hlen;
      rewrite ?length_append in Hlen; simpl in Hlen; try lia.
    destruct p; simpl in Hlen; [auto | lia]. }
  destruct Hp as (-> & -> & E). simpl in E.
  do 10 (destruct d as [|? d]; [discriminate|]).
  destruct d; [|discriminate].
  do 10 (destruct d' as [|? d']; [discriminate|]).
  destruct d'; [|discriminate].
  simpl in E. inversion E.
Qed.

Lemma re_search_cons (c : ascii) (s : string) :
  re_search (String c s) =
    match match_here (String c s) with
    | Some d => Some d
    | None => re_search s
    end.
Proof. reflexivity. Qed.

Lemma re_search_sound (s d : string) :
  re_search s = Some d -> exists p rest, s = p ++ rest /\ match_here rest = Some d.
Proof.
  induction s as [|c s IH].
  - intros H. vm_compute in H. discriminate H.
  - rewrite re_search_cons. destruct (match_here (String c s)) eqn:E.
    + intros H. inversion H; subst. now exists "", (String c s).
    + intros H. destruct (IH H) as (p & rest & -> & Hm).
      now exists (String c p), rest.
Qed.

Lemma re_search_complete (p rest d : string) :
  match_here rest = Some d -> re_search (p ++ rest) = Some d.
Proof.
  intros Hm. induction p as [|c p IH].
  - change ("" ++ rest) with rest.
    destruct rest as [|a rest]; [vm_compute in Hm; discriminate Hm|].
    now rewrite re_search_cons, Hm.
  - change (String c p ++ rest) with (String c (p ++ rest)).
    rewrite re_search_cons.
    destruct (match_here (String c (p ++ rest))) eqn:E.
    + exfalso. exact (match_here_unique c p rest d _ Hm E).
    + exact IH.
Qed.

Lemma re_search_spec (s d : string) :
  re_search s = Some d <-> marker_before_dollar s d.
Proof.
  unfold marker_before_dollar. split.
  - intros H. destruct (re_search_sound s d H) as (p & rest & -> & Hm).
    apply match_here_spec in Hm as (Hl & Hd & Hs). repeat split; try assumption.
    exists p. destruct Hs as [-> | ->]; auto.
  - intros (Hl & Hd & p & Hs).
    assert (E : exists rest, s = p ++ rest /\ match_here rest = Some d).
    { destruct Hs as [-> | ->]; eexists; (split; [reflexivity|]);
        apply match_here_spec; auto. }
    destruct E as (rest & -> & Hm). now apply re_search_complete.
Qed.

Lemma endswith_append (p suffix : string) : endswith (p ++ suffix) suffix = true.
Proof.
  induction p as [|c p IH]; simpl.
  - destruct suffix; simpl; [reflexivity|]. now rewrite Ascii.eqb_refl, String.eqb_refl.
  - rewrite IH. apply orb_true_r.
Qed.

(** ** The keys *)

Lemma key_lt_irrefl (a : sort_key) : key_lt a a = false.
Proof. destruct a; simpl; [apply Z.ltb_irrefl | reflexivity]. Qed.

Lemma key_lt_asym (a b : sort_key) : key_lt a b = true -> key_lt b a = false.
Proof.
  destruct a, b; simpl; try reflexivity; try discriminate.
  intros H. apply Z.ltb_lt in H. apply Z.ltb_ge. lia.
Qed.

Lemma key_le_trans (a b c : sort_key) :
  key_le a b = true -> key_le b c = true -> key_le a c = true.
Proof.
  unfold key_le. destruct a, b, c; simpl; try reflexivity; try discriminate.
  rewrite !negb_true_iff, !Z.ltb_ge. lia.
Qed.

Lemma key_eqb_eq (a b : sort_key) : key_eqb a b = true <-> a = b.
Proof.
  destruct a, b; simpl; split; try discriminate; try reflexivity.
  - intros H. apply Z.eqb_eq in H. now subst.
  - intros H. inversion H. apply Z.eqb_refl.
Qed.

Lemma key_lt_inf (a : sort_key) : key_eqb a KInf = false -> key_lt a KInf = true.
Proof. destruct a; simpl; [reflexivity | discriminate]. Qed.

(** ** The stable sort *)

Section SortedFacts.

Local Open Scope list_scope.

Context {A : Type} (key : A -> sort_key).

Local Abbreviation ord := (key_ord key).

Lemma insert_by_perm (x : A) (l : list A) : Permutation (insert_by key x l) (x :: l).
Proof.
  induction l as [|y l IH]; simpl; [apply Permutation_refl|].
  destruct (key_lt (key y) (key x)); [|apply Permutation_refl].
  eapply Permutation_trans; [apply perm_skip, IH | apply perm_swap].
Qed.

Lemma sorted_by_perm (l : list A) : Permutation (sorted_by key l) l.
Proof.
  induction l as [|x l IH]; simpl; [apply Permutation_refl|].
  eapply Permutation_trans; [apply insert_by_perm | now apply perm_skip].
Qed.

Lemma insert_by_hdrel (a x : A) (l : list A) :
  HdRel ord a l -> ord a x -> HdRel ord a (insert_by key x l).
Proof.
  intros Hl Hx. destruct l as [|y l]; simpl; [now constructor|].
  destruct (key_lt (key y) (key x)); constructor; [|assumption].
  now inversion Hl.
Qed.

Lemma insert_by_sorted (x : A) (l : list A) :
  Sorted ord l -> Sorted ord (insert_by key x l).
Proof.
  induction 1 as [|y l Hs IH Hhd]; simpl; [repeat constructor|].
  destruct (key_lt (key y) (key x)) eqn:E.
  - constructor; [exact IH|]. apply insert_by_hdrel; [assumption|].
    unfold key_ord, key_le. now rewrite (key_lt_asym _ _ E).
  - constructor; [now constructor|]. constructor. unfold key_ord, key_le. now rewrite E.
Qed.

Lemma sorted_by_sorted (l : list A) : Sorted ord (sorted_by key l).
Proof.
  induction l as [|x l IH]; simpl; [constructor | now apply insert_by_sorted].
Qed.

(** Insertion puts [x] in front of the elements that share its key. *)
Lemma filter_insert_by (k : sort_key) (x : A) (l : list A) :
  filter (fun y => key_eqb (key y) k) (insert_by key x l) =
  filter (fun y => key_eqb (key y) k) (x :: l).
Proof.
  induction l as [|y l IH]; [reflexivity|].
  simpl. destruct (key_lt (key y) (key x)) eqn:E; [|reflexivity].
  simpl. rewrite IH. simpl.
  destruct (key_eqb (key y) k) eqn:Ey, (key_eqb (key x) k) eqn:Ex; try reflexivity.
  apply key_eqb_eq in Ey, Ex. rewrite Ey, Ex, key_lt_irrefl in E. discriminate.
Qed.

Lemma sorted_by_stable (k : sort_key) (l : list A) :
  filter (fun y => key_eqb (key y) k) (sorted_by key l) =
  filter (fun y => key_eqb (key y) k) l.
Proof.
  induction l as [|x l IH]; [reflexivity|].
  simpl sorted_by. rewrite filter_insert_by. simpl. now rewrite IH.
Qed.

Lemma insert_by_app_inf (x : A) (l inf : list A) :
  Forall (fun y => key_eqb (key y) KInf = false) l ->
  Forall (fun y => key (y) = KInf) inf ->
  insert_by key x (l ++ inf) =
    if key_eqb (key x) KInf then l ++ x :: inf else insert_by key x l ++ inf.
Proof.
  intros Hl Hinf. induction Hl as [|y l Hy Hl IH]; simpl.
  - destruct inf as [|z inf]; simpl.
    + now destruct (key_eqb (key x) KInf).
    + inversion Hinf as [|? ? Hz _]; subst. rewrite Hz.
      destruct (key x); reflexivity.
  - rewrite IH. destruct (key_eqb (key x) KInf) eqn:Ex.
    + apply key_eqb_eq in Ex. rewrite Ex, (key_lt_inf _ Hy). reflexivity.
    + now destruct (key_lt (key y) (key x)).
Qed.

Lemma insert_by_keeps_finite (x : A) (l : list A) :
  key_eqb (key x) KInf = false ->
  Forall (fun y => key_eqb (key y) KInf = false) l ->
  Forall (fun y => key_eqb (key y) KInf = false) (insert_by key x l).
Proof.
  intros Hx Hl. induction Hl as [|y l Hy Hl IH]; simpl; [now constructor|].
  destruct (key_lt (key y) (key x)); repeat constructor; assumption.
Qed.

(** The elements without a marker come last, in their original order. *)
Lemma sorted_by_inf_last (l : list A) :
  sorted_by key l =
    sorted_by key (filter (fun y => negb (key_eqb (key y) KInf)) l) ++
    filter (fun y => key_eqb (key y) KInf) l.
Proof.
  assert (Hfin : forall m : list A,
            Forall (fun y => key_eqb (key y) KInf = false)
                   (sorted_by key (filter (fun y => negb (key_eqb (key y) KInf)) m))).
  { induction m as [|x m IH]; simpl; [constructor|].
    destruct (key_eqb (key x) KInf) eqn:Ex; simpl; [exact IH|].
    now apply insert_by_keeps_finite. }
  assert (Hall : forall m : list A,
            Forall (fun y => key y = KInf) (filter (fun y => key_eqb (key y) KInf) m)).
  { intros m. apply Forall_forall. intros y Hy.
    apply filter_In in Hy as [_ Hy]. now apply key_eqb_eq. }
  induction l as [|x l IH]; [reflexivity|].
  simpl sorted_by at 1. rewrite IH.
  rewrite (insert_by_app_inf x _ _ (Hfin l) (Hall l)). simpl.
  now destruct (key_eqb (key x) KInf).
Qed.

End SortedFacts.

Local Open Scope string_scope.

(** ** The claim about the ordering *)

(** The [$] of the pattern also matches in front of a newline that ends the
    string: an identifier in which a newline follows ".avro" has no ten
    digits in front of a final ".avro" and still gets an integer key.
    [reading_avro_files] never computes the key of such an identifier, as it
    keeps only the names that end in ".avro". *)
Lemma marker_before_final_newline :
  let s := "0123456789.avro" ++ String newline "" in
  (forall d, ~ marker_before_suffix s d) /\ extract_start_tstamp s <> KInf.
Proof.
  split.
  - intros d (_ & _ & p & H).
    assert (E : endswith (p ++ d ++ ".avro") ".avro" = true).
    { rewrite <- append_assoc. apply endswith_append. }
    rewrite <- H in E. vm_compute in E. discriminate E.
  - vm_compute. discriminate.
Qed.

End OrderingFacts.

(** * Properties of the serializer *)

Module SerializerFacts.
Import Serializer.

Local Open Scope string_scope.

(** ** Normalising the format *)

Lemma lower_char_idem (c : ascii) : lower_char (lower_char c) = lower_char c.
Proof. each_char c; reflexivity. Qed.

Lemma is_space_lower_char (c : ascii) : is_space (lower_char c) = is_space c.
Proof. each_char c; reflexivity. Qed.

Lemma py_lower_idem (s : string) : py_lower (py_lower s) = py_lower s.
Proof.
  induction s as [|c s IH]; simpl; [reflexivity|].
  now rewrite lower_char_idem, IH.
Qed.

Lemma py_lower_lstrip (s : string) : py_lower (lstrip s) = lstrip (py_lower s).
Proof.
  induction s as [|c s IH]; simpl; [reflexivity|].
  rewrite is_space_lower_char. now destruct (is_space c).
Qed.

Lemma py_lower_rstrip (s : string) : py_lower (rstrip s) = rstrip (py_lower s).
Proof.
  induction s as [|c s IH]; simpl; [reflexivity|].
  rewrite <- IH, is_space_lower_char.
  destruct (rstrip s); simpl; [now destruct (is_space c) | reflexivity].
Qed.

Lemma py_lower_strip (s : string) : py_lower (py_strip s) = py_strip (py_lower s).
Proof. unfold py_strip. now rewrite py_lower_rstrip, py_lower_lstrip. Qed.

Lemma lstrip_no_leading_space (s : string) : no_leading_space (lstrip s).
Proof.
  induction s as [|c s IH]; simpl; [exact I|].
  destruct (is_space c) eqn:E; [exact IH | exact E].
Qed.

Lemma lstrip_id (s : string) : no_leading_space s -> lstrip s = s.
Proof. destruct s as [|c s]; simpl; [reflexivity|]. now intros ->. Qed.

Lemma rstrip_no_leading_space (s : string) :
  no_leading_space s -> no_leading_space (rstrip s).
Proof.
  destruct s as [|c s]; simpl; [trivial|]. intros H.
  destruct (rstrip s); simpl; [now rewrite H | exact H].
Qed.

Lemma rstrip_idem (s : string) : rstrip (rstrip s) = rstrip s.
Proof.
  induction s as [|c s IH]; simpl; [reflexivity|].
  destruct (rstrip s) as [|c' r] eqn:E.
  - destruct (is_space c) eqn:Ec; simpl; [reflexivity | now rewrite Ec].
  - simpl in *. now rewrite IH.
Qed.

Lemma py_strip_idem (s : string) : py_strip (py_strip s) = py_strip s.
Proof.
  unfold py_strip.
  rewrite (lstrip_id (rstrip (lstrip s))).
  - apply rstrip_idem.
  - apply rstrip_no_leading_space, lstrip_no_leading_space.
Qed.

Lemma normalize_idem (fmt : string) :
  py_strip (py_lower (py_strip (py_lower fmt))) = py_strip (py_lower fmt).
Proof. now rewrite py_lower_strip, py_lower_idem, py_strip_idem. Qed.

(** ** A name in any case, with white space around it *)

Lemma py_lower_app (a b : string) : py_lower (a ++ b) = py_lower a ++ py_lower b.
Proof. induction a as [|c a IH]; simpl; [reflexivity | now rewrite IH]. Qed.

Lemma blank_lower (s : string) : blank s = true -> blank (py_lower s) = true.
Proof.
  unfold blank. induction s as [|c s IH]; simpl; [reflexivity|].
  intros H. apply andb_prop in H as [Hc Hs].
  now rewrite is_space_lower_char, Hc, IH.
Qed.

Lemma lstrip_blank_app (l t : string) : blank l = true -> lstrip (l ++ t) = lstrip t.
Proof.
  unfold blank. induction l as [|c l IH]; simpl; [reflexivity|].
  intros H. apply andb_prop in H as [Hc Hl]. now rewrite Hc, IH.
Qed.

Lemma rstrip_blank (r : string) : blank r = true -> rstrip r = "".
Proof.
  unfold blank. induction r as [|c r IH]; simpl; [reflexivity|].
  intros H. apply andb_prop in H as [Hc Hr]. now rewrite IH, Hc.
Qed.

Lemma rstrip_app_blank (s r : string) : blank r = true -> rstrip (s ++ r) = rstrip s.
Proof.
  intros Hr. induction s as [|c s IH]; [now apply rstrip_blank|].
  cbn [append rstrip]. now rewrite IH.
Qed.

Lemma spells_char_lower (k c : ascii) :
  spells_char k c = true -> lower_char k = k -> lower_char c = k.
Proof.
  unfold spells_char. intros H Hk. apply orb_prop in H as [H | H].
  - apply Ascii.eqb_eq in H. now subst c.
  - apply andb_prop in H as [H Hs]. apply andb_prop in H as [H1 H2].
    apply Nat.eqb_eq in Hs. unfold lower_char. rewrite H1, H2. cbn [andb orb].
    now rewrite Hs, ascii_nat_embedding.
Qed.

Lemma spells_lower (canonical s : string) :
  spells canonical s = true -> py_lower canonical = canonical -> py_lower s = canonical.
Proof.
  revert s. induction canonical as [|k canonical IH]; intros [|c s] H Hk;
    try discriminate H; [reflexivity|].
  cbn [spells] in H. apply andb_prop in H as [Hc Hs].
  cbn [py_lower] in Hk |- *. injection Hk as Hk1 Hk2.
  now rewrite (spells_char_lower k c Hc Hk1), (IH s Hs Hk2).
Qed.

(** A name that is in lower case, starts with no white space and ends with
    none is what [lower().strip()] makes of any of its spellings, whatever
    the white space around the spelling. *)
Lemma normalize_spelling (k : ascii) (rest l core r : string) :
  is_space k = false ->
  rstrip (String k rest) = String k rest ->
  py_lower (String k rest) = String k rest ->
  blank l = true -> blank r = true ->
  spells (String k rest) core = true ->
  py_strip (py_lower (l ++ core ++ r)) = String k rest.
Proof.
  intros Hk Hr Hlow Hl Hb Hs.
  rewrite !py_lower_app, (spells_lower _ _ Hs Hlow). unfold py_strip.
  rewrite (lstrip_blank_app _ _ (blank_lower l Hl)).
  cbn [append lstrip]. rewrite Hk.
  change (String k (rest ++ py_lower r)) with (String k rest ++ py_lower r).
  now rewrite (rstrip_app_blank _ _ (blank_lower r Hb)).
Qed.

(** ** The claims about the dispatch on the format *)

Section Dispatch.

Variable float_repr : float -> string.
Variable pickle_dumps : value -> list Byte.byte.
Variable frame_to_csv : value -> value -> result string.

Local Abbreviation serialize := (serialize_data_dict float_repr pickle_dumps frame_to_csv).

(** C10.  A format and its form after [lower().strip()] give the same
    result.  So the format is read whatever its case and the white space
    around it: any spelling of "pickle", of "json" or of "csv" in upper and
    lower case, between any two runs of white space, is served as the name
    itself is; "PICKLE" gives the pickle file and " Json " the JSON file. *)
Theorem serialize_format_normalized (data_dict : value) (base_name : string) :
  (forall fmt,
     serialize data_dict fmt base_name =
     serialize data_dict (py_strip (py_lower fmt)) base_name) /\
  (forall l core r, blank l = true -> blank r = true ->
     (spells "pickle" core = true ->
      serialize data_dict (l ++ core ++ r) base_name =
        Ok (pickle_dumps data_dict, base_name ++ ".pkl", "application/octet-stream")) /\
     (spells "json" core = true ->
      serialize data_dict (l ++ core ++ r) base_name =
        Ok (utf8_encode (json_dumps float_repr (nan_to_none data_dict)),
            base_name ++ ".json", "application/json")) /\
     (spells "csv" core = true ->
      serialize data_dict (l ++ core ++ r) base_name =
        serialize data_dict "csv" base_name)) /\
  serialize data_dict "PICKLE" base_name =
    Ok (pickle_dumps data_dict, base_name ++ ".pkl", "application/octet-stream") /\
  serialize data_dict " Json " base_name =
    Ok (utf8_encode (json_dumps float_repr (nan_to_none data_dict)),
        base_name ++ ".json", "application/json").
Proof.
  split; [|split; [|split]].
  - intros fmt. unfold serialize_data_dict. now rewrite normalize_idem.
  - intros l core r Hl Hr. split; [|split]; intros Hs; unfold serialize_data_dict.
    + now rewrite (normalize_spelling "p" "ickle" l core r).
    + now rewrite (normalize_spelling "j" "son" l core r).
    + now rewrite (normalize_spelling "c" "sv" l core r).
  - reflexivity.
  - reflexivity.
Qed.

(** C8, amended.  When the format, lowered and stripped, is none of "pickle",
    "json" and "csv", the call raises [ValueError] with the fixed message
    "Unsupported format. Use 'pickle', 'json', or 'csv'." and returns no
    bytes, file name or mime type. *)
Theorem unsupported_format_raises (data_dict : value) (fmt base_name : string) :
  ~ In (py_strip (py_lower fmt)) ["pickle"; "json"; "csv"] ->
  serialize data_dict fmt base_name = Raise (ValueError unsupported_format) /\
  is_ok (serialize data_dict fmt base_name) = false.
Proof.
  intros H.
  assert (E : serialize data_dict fmt base_name = Raise (ValueError unsupported_format)).
  { unfold serialize_data_dict.
    destruct (String.eqb_spec (py_strip (py_lower fmt)) "pickle") as [E|_];
      [exfalso; apply H; rewrite E; simpl; auto|].
    destruct (String.eqb_spec (py_strip (py_lower fmt)) "json") as [E|_];
      [exfalso; apply H; rewrite E; simpl; auto|].
    destruct (String.eqb_spec (py_strip (py_lower fmt)) "csv") as [E|_];
      [exfalso; apply H; rewrite E; simpl; auto|].
    reflexivity. }
  now rewrite E.
Qed.

(** The three formats are served, whatever the case and the white space
    around the name. *)
Lemma supported_format_served (data_dict : value) (fmt base_name : string) :
  In (py_strip (py_lower fmt)) ["pickle"; "json"] ->
  is_ok (serialize data_dict fmt base_name) = true.
Proof.
  unfold serialize_data_dict.
  intros [<- | [<- | []]]; reflexivity.
Qed.

End Dispatch.

(** C8, as stated, fails twice: "PICKLE" is none of the three format names
    and is served all the same, and the failure on "xml" is a [ValueError]
    whose message does not contain "xml". *)
Lemma unsupported_format_not_as_claimed :
  ~ In "PICKLE" ["pickle"; "json"; "csv"] /\
  is_ok (serialize_data_dict Sample.float_repr Sample.pickle_dumps Sample.frame_to_csv
           Sample.series "PICKLE" "x") = true /\
  serialize_data_dict Sample.float_repr Sample.pickle_dumps Sample.frame_to_csv
    Sample.series "xml" "x" = Raise (ValueError unsupported_format) /\
  contains "xml" unsupported_format = false.
Proof.
  split; [|split; [|split]]; try reflexivity.
  intros [H | [H | [H | []]]]; discriminate H.
Qed.

Lemma serialize_format_normalized_witness :
  serialize_data_dict Sample.float_repr Sample.pickle_dumps Sample.frame_to_csv
    Sample.series (String "009" " " ++ "PiCkLe" ++ String " " (String Ordering.newline ""))
    "x" =
  Ok (Sample.pickle_dumps Sample.series, "x.pkl", "application/octet-stream").
Proof.
  refine (proj1 (proj1 (proj2 (serialize_format_normalized Sample.float_repr
            Sample.pickle_dumps Sample.frame_to_csv Sample.series "x"))
            (String "009" " ") "PiCkLe" (String " " (String Ordering.newline "")) _ _) _);
    reflexivity.
Defined.

Lemma unsupported_format_raises_witness :
  serialize_data_dict Sample.float_repr Sample.pickle_dumps Sample.frame_to_csv
    Sample.series " XML " "x" = Raise (ValueError unsupported_format).
Proof.
  refine (proj1 (unsupported_format_raises Sample.float_repr Sample.pickle_dumps
                   Sample.frame_to_csv Sample.series " XML " "x" _)).
  vm_compute. intros [H | [H | [H | []]]]; discriminate H.
Defined.

End SerializerFacts.

(** * Properties of the JSON output *)

Module JsonFacts.
Import Serializer Json.

Local Open Scope string_scope.

(** ** Sanitizing *)

(** Induction over values that goes through the items of lists and dicts. *)
Lemma value_nested_ind (P : value -> Prop) :
  P VNone ->
  (forall b, P (VBool b)) ->
  (forall z, P (VInt z)) ->
  (forall f, P (VFloat f)) ->
  (forall s, P (VStr s)) ->
  (forall l, Forall P l -> P (VList l)) ->
  (forall d, Forall (fun kv => P (snd kv)) d -> P (VDict d)) ->
  forall x, P x.
Proof.
  intros Hnone Hbool Hint Hfloat Hstr Hlist Hdict.
  fix IH 1. intros x. destruct x as [|b|z|f|s|l|d].
  - exact Hnone.
  - apply Hbool.
  - apply Hint.
  - apply Hfloat.
  - apply Hstr.
  - apply Hlist. induction l as [|v l IHl]; constructor; [apply IH | exact IHl].
  - apply Hdict. induction d as [|[k v] d IHd]; constructor; [apply IH | exact IHd].
Qed.

Lemma is_finite_test (f : float) :
  PrimFloat.is_nan f || PrimFloat.is_infinity f = negb (PrimFloat.is_finite f).
Proof. unfold PrimFloat.is_finite. now rewrite negb_involutive. Qed.

(** [_nan_to_none] does what the words say. *)
Lemma nan_to_none_sanitized (x : value) : sanitized x (nan_to_none x).
Proof.
  induction x as [|b|z|f|s|l IH|d IH] using value_nested_ind; simpl;
    try now constructor.
  - rewrite is_finite_test.
    destruct (PrimFloat.is_finite f) eqn:E; simpl; now constructor.
  - constructor. induction IH as [|v l Hv _ IHl]; simpl; now constructor.
  - constructor. induction IH as [|[k v] d Hv _ IHd]; simpl; constructor;
      [split; [reflexivity | exact Hv] | exact IHd].
Qed.

(** No NaN and no infinity is left. *)
Lemma nan_to_none_all_finite (x : value) : all_finite (nan_to_none x) = true.
Proof.
  induction x as [|b|z|f|s|l IH|d IH] using value_nested_ind; simpl;
    try reflexivity.
  - rewrite is_finite_test.
    destruct (PrimFloat.is_finite f) eqn:E; simpl; [exact E | reflexivity].
  - induction IH as [|v l Hv _ IHl]; simpl; [reflexivity | now rewrite Hv, IHl].
  - induction IH as [|[k v] d Hv _ IHd]; simpl in *; [reflexivity | now rewrite Hv, IHd].
Qed.

(** A value without NaN and infinity is left as it is. *)
Lemma nan_to_none_id (x : value) : all_finite x = true -> nan_to_none x = x.
Proof.
  induction x as [|b|z|f|s|l IH|d IH] using value_nested_ind; simpl;
    try reflexivity.
  - rewrite is_finite_test. now intros ->.
  - intros H. f_equal. induction IH as [|v l Hv _ IHl]; simpl in *; [reflexivity|].
    apply andb_prop in H as [H1 H2]. now rewrite Hv, IHl.
  - intros H. f_equal. induction IH as [|[k v] d Hv _ IHd]; simpl in *; [reflexivity|].
    apply andb_prop in H as [H1 H2]. now rewrite Hv, IHd.
Qed.

(** ** Strings *)

Lemma all_chars_app (p : ascii -> bool) (a b : string) :
  all_chars p (a ++ b) = all_chars p a && all_chars p b.
Proof.
  induction a as [|x a IH]; simpl; [reflexivity|].
  now rewrite IH, andb_assoc.
Qed.

Lemma all_chars_impl (p q : ascii -> bool) (s : string) :
  (forall c, p c = true -> q c = true) -> all_chars p s = true -> all_chars q s = true.
Proof.
  intros Hpq. induction s as [|c s IH]; simpl; [reflexivity|].
  intros H. apply andb_prop in H as [H1 H2]. now rewrite (Hpq c H1), IH.
Qed.

Lemma concat_app (l1 l2 : list string) :
  String.concat "" (l1 ++ l2) = String.concat "" l1 ++ String.concat "" l2.
Proof.
  induction l1 as [|x l1 IH]; [reflexivity|].
  destruct l1 as [|y l1].
  - simpl. destruct l2 as [|z l2]; [now rewrite append_nil_r | reflexivity].
  - change (String.concat "" ((x :: y :: l1) ++ l2))
      with (x ++ String.concat "" ((y :: l1) ++ l2)).
    rewrite IH. change (String.concat "" (x :: y :: l1))
      with (x ++ String.concat "" (y :: l1)).
    now rewrite append_assoc.
Qed.

Lemma concat_cons (x : string) (l : list string) :
  String.concat "" (x :: l) = x ++ String.concat "" l.
Proof. apply (concat_app [x] l). Qed.

(** ** The rewriting of the chunks *)

Lemma item_char_not_newline (c : ascii) : item_char c = true -> not_newline c = true.
Proof. each_char c; intros H; try reflexivity; discriminate H. Qed.

(** A pattern that starts with a newline does not occur in a text without
    newlines. *)
Lemma replace_go_no_newline (old' new s : string) :
  all_chars not_newline s = true ->
  replace_go (String Ordering.newline old') new 0 s = s.
Proof.
  induction s as [|c s IH]; [reflexivity|].
  intros H. simpl in H. apply andb_prop in H as [Hc Hs].
  cbn [replace_go prefix].
  destruct (ascii_dec Ordering.newline c) as [E|_].
  - subst c. discriminate Hc.
  - now rewrite (IH Hs).
Qed.

Lemma py_replace_no_newline (old' new s : string) :
  all_chars not_newline s = true ->
  py_replace (String Ordering.newline old') new s = s.
Proof. apply replace_go_no_newline. Qed.

Lemma compact_chunk_no_newline (s : string) :
  all_chars not_newline s = true -> compact_chunk s = s.
Proof.
  intros H. unfold compact_chunk, nl.
  change (String Ordering.newline "" ++ "  [" ++ String Ordering.newline "" ++ "    ")
    with (String Ordering.newline ("  [" ++ String Ordering.newline "" ++ "    ")).
  change (String Ordering.newline "" ++ "    ") with (String Ordering.newline "    ").
  change (String Ordering.newline "" ++ "  ]") with (String Ordering.newline "  ]").
  now rewrite !(py_replace_no_newline _ _ s) by assumption.
Qed.


Lemma prefix_nil (s : string) : prefix "" s = true.
Proof. now destruct s. Qed.

(** The chunk that opens an array or separates two items, with the item:
    its line break and indentation become one space. *)
Lemma compact_chunk_item (open t : string) :
  open = "[" \/ open = "," ->
  all_chars not_newline t = true ->
  compact_chunk (open ++ newline_indent 2 ++ t) = open ++ " " ++ t.
Proof.
  intros Ho Ht. unfold compact_chunk, nl, py_replace.
  destruct Ho as [-> | ->]; cbn; rewrite prefix_nil;
    rewrite !(replace_go_no_newline _ _ t) by assumption; cbn;
    rewrite !(replace_go_no_newline _ _ t) by assumption; reflexivity.
Qed.

(** ** The text of a numeric series *)

Section Series.

Variable float_repr : float -> string.
Variable float_of_text : string -> option float.
Hypothesis float_repr_literal :
  forall f, PrimFloat.is_finite f = true -> float_literal (float_repr f) = true.
Hypothesis float_of_text_repr :
  forall f, PrimFloat.is_finite f = true -> float_of_text (float_repr f) = Some f.

Local Abbreviation text := (text_of float_repr).

Lemma floatstr_finite (f : float) :
  PrimFloat.is_finite f = true -> floatstr float_repr f = float_repr f.
Proof.
  intros H. unfold floatstr.
  assert (Hn : PrimFloat.is_nan f = false).
  { unfold PrimFloat.is_finite in H. apply negb_true_iff, orb_false_iff in H. tauto. }
  rewrite Hn, !eqb_spec.
  change (Prim2SF infinity) with (S754_infinity false).
  change (Prim2SF neg_infinity) with (S754_infinity true).
  destruct (finite_cases f H) as [[sg ->] | (sg & m & e & ->)]; reflexivity.
Qed.

Lemma scalar_text_plain (v : value) :
  plain v = true -> scalar_text float_repr v = Some (text v).
Proof. unfold text_of. destruct v as [|[]| | | | |]; simpl; intros H; try reflexivity; discriminate H. Qed.

Lemma uint_chars (d : Decimal.uint) :
  all_chars item_char (NilEmpty.string_of_uint d) = true.
Proof. induction d; simpl; auto. Qed.

Lemma intstr_chars (z : Z) : all_chars item_char (intstr z) = true.
Proof.
  unfold intstr, NilZero.string_of_int, NilZero.string_of_uint.
  destruct (Z.to_int z) as [d|d]; [destruct d | simpl; destruct d]; simpl; try reflexivity;
    apply uint_chars.
Qed.

Lemma number_char_item (c : ascii) : is_number_char c = true -> item_char c = true.
Proof. each_char c; intros H; try reflexivity; discriminate H. Qed.

Lemma text_chars (v : value) : good v = true -> all_chars item_char (text v) = true.
Proof.
  unfold good, text_of. destruct v as [|[]|z|f| | |]; simpl; try reflexivity; try discriminate.
  - intros _. apply intstr_chars.
  - intros H. rewrite (floatstr_finite f H).
    specialize (float_repr_literal f H). unfold float_literal in float_repr_literal.
    apply andb_prop in float_repr_literal as [H1 _]. apply andb_prop in H1 as [_ H1].
    revert H1. apply all_chars_impl, number_char_item.
Qed.

Lemma good_plain (v : value) : good v = true -> plain v = true.
Proof. unfold good. intros H. now apply andb_prop in H. Qed.

Lemma text_not_newline (v : value) :
  good v = true -> all_chars not_newline (text v) = true.
Proof.
  intros H. apply (all_chars_impl item_char); [apply item_char_not_newline|].
  now apply text_chars.
Qed.

Lemma list_items_rest (enc : value -> nat -> list string) (l : list value) :
  Forall (fun v => good v = true) l ->
  iterencode_list_items float_repr enc 1 false l =
    map (fun v => "," ++ newline_indent 2 ++ text v) l.
Proof.
  induction 1 as [|v l Hv _ IH]; [reflexivity|].
  cbn [iterencode_list_items map]. rewrite (scalar_text_plain v (good_plain v Hv)), IH.
  reflexivity.
Qed.

Lemma list_items_first (enc : value -> nat -> list string) (v : value) (l : list value) :
  good v = true ->
  Forall (fun v => good v = true) l ->
  iterencode_list_items float_repr enc 1 true (v :: l) =
    ("[" ++ newline_indent 2 ++ text v) ::
    map (fun v => "," ++ newline_indent 2 ++ text v) l.
Proof.
  intros Hv Hl. rewrite <- (list_items_rest enc l Hl).
  cbn [iterencode_list_items]. rewrite (scalar_text_plain v (good_plain v Hv)).
  reflexivity.
Qed.

Lemma compact_tail_text (l : list value) :
  Forall (fun v => good v = true) l ->
  String.concat ""
    (map compact_chunk
       (map (fun v => "," ++ newline_indent 2 ++ text v) l ++ [newline_indent 1; "]"])) =
  array_tail float_repr " " l.
Proof.
  induction 1 as [|v l Hv _ IH]; [reflexivity|].
  cbn [map array_tail]. rewrite <- app_comm_cons. cbn [map]. rewrite concat_cons, IH.
  rewrite (compact_chunk_item "," (text v)) by (auto using text_not_newline).
  reflexivity.
Qed.

Lemma plain_tail_text (l : list value) :
  String.concat ""
    (map (fun v => "," ++ newline_indent 2 ++ text v) l ++ [newline_indent 1; "]"]) =
  array_tail float_repr (newline_indent 2) l.
Proof.
  induction l as [|v l IH]; [reflexivity|].
  cbn [map array_tail]. rewrite <- app_comm_cons, concat_cons, IH. cbn. rewrite ?append_assoc; reflexivity.
Qed.

(** The text of an array of items, with and without the rewriting. *)
Lemma compact_array_text (l : list value) :
  Forall (fun v => good v = true) l ->
  String.concat "" (map compact_chunk (iterencode float_repr (VList l) 1)) =
  compact_array float_repr l.
Proof.
  intros H. destruct H as [|v l Hv Hl]; [reflexivity|].
  cbn [iterencode]. rewrite (list_items_first _ v l Hv Hl).
  rewrite <- app_comm_cons. unfold compact_array; cbn [map array_text]. rewrite concat_cons, (compact_tail_text l Hl).
  rewrite (compact_chunk_item "[" (text v)) by (auto using text_not_newline).
  reflexivity.
Qed.

Lemma plain_array_text (l : list value) :
  Forall (fun v => good v = true) l ->
  String.concat "" (iterencode float_repr (VList l) 1) = plain_array float_repr l.
Proof.
  intros H. destruct H as [|v l Hv Hl]; [reflexivity|].
  cbn [iterencode]. rewrite (list_items_first _ v l Hv Hl).
  rewrite <- app_comm_cons. unfold plain_array; cbn [array_text]. rewrite concat_cons, (plain_tail_text l).
  cbn. rewrite ?append_assoc; reflexivity.
Qed.

Lemma iterencode_series (a b c : list value) :
  iterencode float_repr (series a b c) 0 =
  (["{"; newline_indent 1; encode_basestring "fs"; ": "] ++
   iterencode float_repr (VList a) 1 ++
   [("," ++ newline_indent 1)%string; encode_basestring "samples"; ": "] ++
   iterencode float_repr (VList b) 1 ++
   [("," ++ newline_indent 1)%string; encode_basestring "tstamps"; ": "] ++
   iterencode float_repr (VList c) 1 ++
   [newline_indent 0; "}"])%list.
Proof. unfold series. cbn [iterencode iterencode_dict_items scalar_text app]. rewrite <- ?app_assoc; reflexivity. Qed.

Lemma json_dumps_series (a b c : list value) :
  Forall (fun v => good v = true) a ->
  Forall (fun v => good v = true) b ->
  Forall (fun v => good v = true) c ->
  json_dumps float_repr (series a b c) = series_text (compact_array float_repr) a b c.
Proof.
  intros Ha Hb Hc. unfold json_dumps, compact_iterencode.
  rewrite iterencode_series, !map_app, !concat_app.
  rewrite (compact_array_text a Ha), (compact_array_text b Hb), (compact_array_text c Hc).
  unfold series_text. cbn. rewrite ?append_assoc; reflexivity.
Qed.

Lemma json_dumps_plain_series (a b c : list value) :
  Forall (fun v => good v = true) a ->
  Forall (fun v => good v = true) b ->
  Forall (fun v => good v = true) c ->
  json_dumps_plain float_repr (series a b c) = series_text (plain_array float_repr) a b c.
Proof.
  intros Ha Hb Hc. unfold json_dumps_plain.
  rewrite iterencode_series, !concat_app.
  rewrite (plain_array_text a Ha), (plain_array_text b Hb), (plain_array_text c Hc).
  unfold series_text. cbn. rewrite ?append_assoc; reflexivity.
Qed.


(** ** Reading the text back *)

Lemma skip_ws_head (c : ascii) (r : string) :
  is_ws c = false -> skip_ws (String c r) = String c r.
Proof. intros H. simpl. now rewrite H. Qed.

Lemma number_run_app (lit : string) (c : ascii) (r : string) :
  all_chars is_number_char lit = true ->
  is_number_char c = false ->
  number_run (lit ++ String c r) = (lit, String c r).
Proof.
  intros Hl Hc. induction lit as [|x lit IH].
  - simpl. now rewrite Hc.
  - simpl in Hl. apply andb_prop in Hl as [Hx Hl]. simpl. now rewrite Hx, (IH Hl).
Qed.

Lemma number_char_not_ws (c : ascii) : is_number_char c = true -> is_ws c = false.
Proof. each_char c; intros H; try reflexivity; discriminate H. Qed.

(** A number literal in front of a character that is not of a number. *)
Lemma parse_literal (n : nat) (lit : string) (v : value) (c : ascii) (r : string) :
  lit <> "" ->
  all_chars is_number_char lit = true ->
  number_of_literal float_of_text lit = Some v ->
  is_number_char c = false ->
  parse_value float_of_text (S n) (lit ++ String c r) = Some (v, String c r).
Proof.
  intros Hne Hl Hv Hc. destruct lit as [|x lit]; [now destruct Hne|].
  pose proof Hl as Hl'. simpl in Hl'. apply andb_prop in Hl' as [Hx _].
  cbn -[skip_ws number_run number_of_literal append].
  change (String x lit ++ String c r) with (String x (lit ++ String c r)).
  rewrite (skip_ws_head x _ (number_char_not_ws x Hx)).
  change (String x (lit ++ String c r)) with (String x lit ++ String c r).
  rewrite (number_run_app _ c r Hl Hc). now rewrite Hv.
Qed.

Lemma any_char_none (p q : ascii -> bool) (s : string) :
  (forall c, p c = true -> q c = false) ->
  all_chars p s = true -> any_char q s = false.
Proof.
  intros Hpq. induction s as [|c s IH]; simpl; [reflexivity|].
  intros H. apply andb_prop in H as [H1 H2]. now rewrite (Hpq c H1), IH.
Qed.

Lemma uint_digits (d : Decimal.uint) :
  all_chars Ordering.is_digit (NilEmpty.string_of_uint d) = true.
Proof. induction d; simpl; auto. Qed.

Lemma to_uint_not_nil (p : positive) : Pos.to_uint p <> Decimal.Nil.
Proof.
  intros H. pose proof (DecimalPos.Unsigned.of_to p) as E.
  rewrite H in E. discriminate E.
Qed.

Lemma digit_not_marker (c : ascii) :
  Ordering.is_digit c = true -> is_float_marker c = false.
Proof. each_char c; intros H; try reflexivity; discriminate H. Qed.

Lemma intstr_no_marker (z : Z) : any_char is_float_marker (intstr z) = false.
Proof.
  unfold intstr, NilZero.string_of_int, NilZero.string_of_uint.
  destruct (Z.to_int z) as [d|d]; [destruct d | simpl; destruct d]; simpl; try reflexivity;
    apply (any_char_none Ordering.is_digit); auto using digit_not_marker, uint_digits.
Qed.

Lemma to_int_proper (z : Z) : Z.to_int z <> Decimal.Pos Decimal.Nil /\ Z.to_int z <> Decimal.Neg Decimal.Nil.
Proof.
  destruct z as [|p|p]; simpl; split; try discriminate;
    intros H; injection H as H; now apply to_uint_not_nil in H.
Qed.

Lemma int_literal (z : Z) : number_of_literal float_of_text (intstr z) = Some (VInt z).
Proof.
  unfold number_of_literal. rewrite intstr_no_marker. unfold intstr.
  destruct (to_int_proper z) as [H1 H2].
  now rewrite (NilZero.isi _ H1 H2); simpl; rewrite DecimalZ.of_to.
Qed.

Lemma float_literal_text (f : float) :
  PrimFloat.is_finite f = true ->
  number_of_literal float_of_text (float_repr f) = Some (VFloat f).
Proof.
  intros H. unfold number_of_literal.
  pose proof (float_repr_literal f H) as L. unfold float_literal in L.
  apply andb_prop in L as [_ L]. now rewrite L, (float_of_text_repr f H).
Qed.

Lemma intstr_not_empty (z : Z) : intstr z <> "".
Proof.
  unfold intstr, NilZero.string_of_int, NilZero.string_of_uint.
  destruct (Z.to_int z) as [d|d]; [|discriminate].
  destruct d; simpl; discriminate.
Qed.

Lemma digit_number_char (c : ascii) : Ordering.is_digit c = true -> is_number_char c = true.
Proof. each_char c; intros H; try reflexivity; discriminate H. Qed.

Lemma intstr_number_chars (z : Z) : all_chars is_number_char (intstr z) = true.
Proof.
  unfold intstr, NilZero.string_of_int, NilZero.string_of_uint.
  destruct (Z.to_int z) as [d|d]; [destruct d | simpl; destruct d]; simpl; try reflexivity;
    apply (all_chars_impl Ordering.is_digit); auto using digit_number_char, uint_digits.
Qed.

(** An item of a numeric series reads back as itself, in front of a
    character that is not of a number. *)
Lemma parse_item (n : nat) (v : value) (c : ascii) (r : string) :
  good v = true ->
  is_number_char c = false ->
  parse_value float_of_text (S n) (text v ++ String c r) = Some (v, String c r).
Proof.
  unfold good, text_of. intros Hv Hc.
  destruct v as [|[]|z|f| | |]; try discriminate Hv; try reflexivity.
  - cbn [scalar_text].
    apply parse_literal;
      [apply intstr_not_empty | apply intstr_number_chars | apply int_literal | exact Hc].
  - simpl in Hv. cbn [scalar_text]. rewrite (floatstr_finite f Hv).
    pose proof (float_repr_literal f Hv) as L. unfold float_literal in L.
    apply andb_prop in L as [L _]. apply andb_prop in L as [L1 L2].
    apply parse_literal; [| exact L2 | now apply float_literal_text | exact Hc].
    intros E. rewrite E in L1. discriminate L1.
Qed.

Lemma parse_value_space (n : nat) (s : string) :
  parse_value float_of_text n (String " " s) = parse_value float_of_text n s.
Proof. destruct n; reflexivity. Qed.

Lemma parse_elems_S (n : nat) (s : string) :
  parse_elems float_of_text (S n) s =
  match parse_value float_of_text n s with
  | Some (v, r) =>
      match skip_ws r with
      | String "," r' =>
          option_map (fun p => (v :: fst p, snd p)) (parse_elems float_of_text n r')
      | String "]" r' => Some ([v], r')
      | _ => None
      end
  | None => None
  end.
Proof. reflexivity. Qed.

(** The items of an array written on one line, read from after the opening
    bracket. *)
Lemma parse_elems_items (l : list value) :
  forall (v : value) (n : nat) (rest : string),
  good v = true ->
  Forall (fun v => good v = true) l ->
  (List.length l + 1 <= n)%nat ->
  parse_elems float_of_text (S n) (" " ++ text v ++ array_tail float_repr " " l ++ rest) =
    Some (v :: l, rest).
Proof.
  induction l as [|v' l IH]; intros v n rest Hv Hl Hn; rewrite parse_elems_S;
    destruct n as [|n]; try (simpl in Hn; lia);
    change (" " ++ ?s) with (String " " s); rewrite parse_value_space.
  - cbn [array_tail]. unfold nl.
    change ((String Ordering.newline "" ++ "  ]") ++ rest)
      with (String Ordering.newline ("  ]" ++ rest)).
    rewrite (parse_item n v _ _ Hv) by reflexivity. reflexivity.
  - cbn [array_tail]. rewrite !append_assoc.
    change ("," ++ ?s) with (String "," s).
    rewrite (parse_item n v _ _ Hv) by reflexivity.
    rewrite skip_ws_head by reflexivity. cbv iota.
    inversion Hl as [|? ? Hv' Hl']; subst.
    rewrite (IH v' n rest Hv' Hl') by (simpl in Hn; lia). reflexivity.
Qed.

Lemma text_head (v : value) :
  good v = true -> exists x t, text v = String x t /\ item_char x = true.
Proof.
  intros Hv. pose proof (text_chars v Hv) as Hc.
  destruct (text v) as [|x t] eqn:E.
  - exfalso. revert E. unfold good, text_of in *.
    destruct v as [|[]|z|f| | |]; try discriminate Hv; try discriminate.
    + apply intstr_not_empty.
    + simpl in Hv. cbn [scalar_text]. rewrite (floatstr_finite f Hv).
      pose proof (float_repr_literal f Hv) as L. unfold float_literal in L.
      apply andb_prop in L as [L _]. apply andb_prop in L as [L _].
      intros E. rewrite E in L. discriminate L.
  - simpl in Hc. apply andb_prop in Hc as [Hx _]. now exists x, t.
Qed.

Lemma item_char_not_ws (c : ascii) : item_char c = true -> is_ws c = false.
Proof. each_char c; intros H; try reflexivity; discriminate H. Qed.

Lemma parse_value_bracket (n : nat) (r : string) :
  parse_value float_of_text (S n) (String "[" r) =
  match skip_ws r with
  | String "]" r' => Some (VList [], r')
  | _ => option_map (fun p => (VList (fst p), snd p)) (parse_elems float_of_text n r)
  end.
Proof. reflexivity. Qed.

(** An array written on one line reads back as the list of its items. *)
Lemma parse_array (l : list value) (n : nat) (rest : string) :
  Forall (fun v => good v = true) l ->
  (List.length l + 2 <= n)%nat ->
  parse_value float_of_text n (compact_array float_repr l ++ rest) = Some (VList l, rest).
Proof.
  intros Hl Hn. destruct n as [|n]; [lia|].
  destruct Hl as [|v l Hv Hl]; [reflexivity|].
  destruct n as [|n]; [simpl in Hn; lia|].
  unfold compact_array. cbn [array_text]. rewrite !append_assoc.
  change ("[" ++ ?s) with (String "[" s). rewrite parse_value_bracket.
  rewrite (parse_elems_items l v n rest Hv Hl) by (simpl in Hn; lia).
  destruct (text_head v Hv) as (x & t & Ht & Hx). rewrite Ht.
  change (skip_ws (" " ++ String x t ++ ?s)) with (skip_ws (String x (t ++ s))).
  rewrite (skip_ws_head x _ (item_char_not_ws x Hx)).
  each_char x; try reflexivity; discriminate Hx.
Qed.

Lemma parse_value_brace (n : nat) (r : string) :
  parse_value float_of_text (S n) (String "{" r) =
  match skip_ws r with
  | String "}" r' => Some (VDict [], r')
  | _ => option_map (fun p => (VDict (fst p), snd p)) (parse_members float_of_text n r [])
  end.
Proof. reflexivity. Qed.

Lemma parse_members_S (n : nat) (s : string) (acc : list (string * value)) :
  parse_members float_of_text (S n) s acc =
  match skip_ws s with
  | String c r =>
      if (nat_of_ascii c =? 34)%nat then
        match read_string r with
        | Some (k, r1) =>
            match skip_ws r1 with
            | String ":" r2 =>
                match parse_value float_of_text n r2 with
                | Some (v, r3) =>
                    let acc' := dict_set acc k v in
                    match skip_ws r3 with
                    | String "," r4 => parse_members float_of_text n r4 acc'
                    | String "}" r4 => Some (acc', r4)
                    | _ => None
                    end
                | None => None
                end
            | _ => None
            end
        | None => None
        end
      else None
  | EmptyString => None
  end.
Proof. reflexivity. Qed.

Lemma skip_ws_indent (s : string) : skip_ws (nl ++ "  " ++ quote ++ s) = quote ++ s.
Proof. reflexivity. Qed.

(** A member of the object, on a line of its own: a key, a colon and an
    array on one line. *)
Lemma parse_member (n : nat) (k : string) (l : list value)
    (acc : list (string * value)) (tail : string) :
  (forall s, read_string (k ++ quote ++ s) = Some (k, s)) ->
  Forall (fun v => good v = true) l ->
  (List.length l + 2 <= n)%nat ->
  parse_members float_of_text (S n)
    (nl ++ "  " ++ quote ++ k ++ quote ++ ": " ++ compact_array float_repr l ++ tail) acc =
  match skip_ws tail with
  | String "," r4 => parse_members float_of_text n r4 (dict_set acc k (VList l))
  | String "}" r4 => Some (dict_set acc k (VList l), r4)
  | _ => None
  end.
Proof.
  intros Hk Hl Hn. rewrite parse_members_S, skip_ws_indent.
  change (quote ++ ?s) with (String (ascii_of_nat 34) s) at 1.
  cbv iota. change (nat_of_ascii (ascii_of_nat 34) =? 34)%nat with true. cbv iota.
  rewrite Hk.
  change (skip_ws (": " ++ ?s)) with (String ":" (String " " s)). cbv iota.
  rewrite parse_value_space, (parse_array l n tail Hl Hn). reflexivity.
Qed.

Lemma array_tail_length (w : string) (l : list value) :
  (List.length l <= String.length (array_tail float_repr w l))%nat.
Proof.
  induction l as [|v l IH]; [simpl; lia|].
  cbn [array_tail List.length]. rewrite !length_append. simpl String.length. lia.
Qed.

Lemma compact_array_length (l : list value) :
  (List.length l <= String.length (compact_array float_repr l))%nat.
Proof.
  destruct l as [|v l]; [simpl; lia|].
  unfold compact_array. cbn [array_text List.length]. rewrite !length_append.
  pose proof (array_tail_length " " l). simpl String.length. lia.
Qed.

(** The text of a numeric series reads back as the series. *)
Lemma loads_text_series (a b c : list value) :
  Forall (fun v => good v = true) a ->
  Forall (fun v => good v = true) b ->
  Forall (fun v => good v = true) c ->
  loads_text float_of_text (series_text (compact_array float_repr) a b c) =
    Some (series a b c).
Proof.
  intros Ha Hb Hc. unfold loads_text.
  assert (Hfuel : exists m,
    (2 * String.length (series_text (compact_array float_repr) a b c) + 2 =
       S (S (S (S (S m)))) /\
     List.length a + 2 <= m /\ List.length b + 2 <= m /\ List.length c + 2 <= m)%nat).
  { exists (2 * String.length (series_text (compact_array float_repr) a b c) - 3)%nat.
    pose proof (compact_array_length a). pose proof (compact_array_length b).
    pose proof (compact_array_length c).
    unfold series_text. rewrite !length_append. simpl String.length. lia. }
  destruct Hfuel as (m & -> & Hma & Hmb & Hmc).
  unfold series_text.
  change (encode_basestring "fs" ++ ?s) with (quote ++ "fs" ++ quote ++ s).
  change (encode_basestring "samples" ++ ?s) with (quote ++ "samples" ++ quote ++ s).
  change (encode_basestring "tstamps" ++ ?s) with (quote ++ "tstamps" ++ quote ++ s).
  change ("{" ++ ?s) with (String "{" s). rewrite parse_value_brace.
  rewrite (parse_member _ "fs" a) by (auto; intros; reflexivity).
  change (skip_ws ("," ++ ?s)) with (String "," s). cbv iota.
  rewrite (parse_member _ "samples" b) by (auto; intros; reflexivity).
  change (skip_ws ("," ++ ?s)) with (String "," s). cbv iota.
  rewrite (parse_member _ "tstamps" c) by (auto; intros; reflexivity).
  rewrite skip_ws_indent.
  reflexivity.
Qed.

(** ** The bytes *)

Lemma utf8_decode_char (c : ascii) (rest : list Byte.byte) :
  utf8_decode (utf8_char c ++ rest)%list = option_map (String c) (utf8_decode rest).
Proof. each_char c; reflexivity. Qed.

Lemma utf8_round_trip (s : string) : utf8_decode (utf8_encode s) = Some s.
Proof.
  unfold utf8_encode. induction s as [|c s IH]; [reflexivity|].
  cbn [list_ascii_of_string flat_map]. now rewrite utf8_decode_char, IH.
Qed.

(** ** The characters of the text *)

Lemma contains_absent (p : ascii -> bool) (c : ascii) (sub s : string) :
  all_chars p s = true -> p c = false -> contains (String c sub) s = false.
Proof.
  intros Hs Hc. induction s as [|x s IH]; [reflexivity|].
  simpl in Hs. apply andb_prop in Hs as [Hx Hs].
  cbn [contains prefix]. rewrite (IH Hs).
  destruct (ascii_dec c x) as [->|_]; [|reflexivity].
  rewrite Hx in Hc. discriminate Hc.
Qed.

Lemma item_char_out (c : ascii) : item_char c = true -> out_char c = true.
Proof. each_char c; intros H; try reflexivity; discriminate H. Qed.

Lemma text_out_chars (v : value) : good v = true -> all_chars out_char (text v) = true.
Proof.
  intros H. apply (all_chars_impl item_char); [apply item_char_out | now apply text_chars].
Qed.

Lemma array_tail_chars (l : list value) :
  Forall (fun v => good v = true) l ->
  all_chars out_char (array_tail float_repr " " l) = true.
Proof.
  induction 1 as [|v l Hv _ IH]; [reflexivity|].
  cbn [array_tail]. now rewrite !all_chars_app, (text_out_chars v Hv), IH.
Qed.

Lemma compact_array_chars (l : list value) :
  Forall (fun v => good v = true) l ->
  all_chars out_char (compact_array float_repr l) = true.
Proof.
  intros H. destruct H as [|v l Hv Hl]; [reflexivity|].
  unfold compact_array. cbn [array_text].
  now rewrite !all_chars_app, (text_out_chars v Hv), (array_tail_chars l Hl).
Qed.

(** The text of a numeric series is made of lower-case letters, digits, the
    signs, point and exponent of numbers, the punctuation of JSON and white
    space. *)
Lemma series_text_chars (a b c : list value) :
  Forall (fun v => good v = true) a ->
  Forall (fun v => good v = true) b ->
  Forall (fun v => good v = true) c ->
  all_chars out_char (series_text (compact_array float_repr) a b c) = true.
Proof.
  intros Ha Hb Hc. unfold series_text.
  now rewrite !all_chars_app, (compact_array_chars a Ha), (compact_array_chars b Hb),
    (compact_array_chars c Hc).
Qed.

End Series.

End JsonFacts.

(** * Further properties of the signal extractor *)

Section ExtractorMore.

Variable measure : string.

(** A record that does not pass is reported as a failure; what it has
    appended by then does not depend on the accumulators, and it appends no
    timestamp. *)
Lemma extract_step_fails (raw : value) :
  passes raw measure = false ->
  exists e fs' data',
    List.length fs' = (if freq_missing raw measure then 0 else 1)%nat /\
    forall s file_idx,
      extract_step measure s file_idx raw =
        mkAcc (fs_combine s ++ fs') (data_combine s ++ data') (tstamp_combine s)
              (messages s ++ [StError measure file_idx e]).
Proof.
  unfold passes, freq_missing. intros Hp.
  unfold extract_step, extract_body, bind, lift, fs_append, data_extend,
    get_tstamps, tstamp_extend, emit, ret.
  destruct (measure_field raw measure "samplingFrequency") as [f|e] eqn:Hf.
  2:{ exists e, [], []. split; [reflexivity|]. intros s i. simpl. now rewrite !app_nil_r. }
  destruct (measure_field raw measure "values") as [d|e] eqn:Hv.
  2:{ exists e, [f], []. split; [reflexivity|]. intros s i. simpl. now rewrite !app_nil_r. }
  destruct (py_iter d) as [items|e] eqn:Hi.
  2:{ exists e, [f], []. split; [reflexivity|]. intros s i. simpl. now rewrite !app_nil_r. }
  destruct (measure_field raw measure "timestampStart") as [t|e] eqn:Ht.
  2:{ exists e, [f], items. split; [reflexivity|]. intros s i. simpl. reflexivity. }
  destruct (Num.truediv t (VFloat 1e6%float)) as [start_s|e] eqn:Hs.
  2:{ exists e, [f], items. split; [reflexivity|]. intros s i. simpl. reflexivity. }
  rewrite (py_len_iter _ _ Hi).
  destruct (Num.truediv (VInt (Z.of_nat (List.length items) - 1)) f) as [q|e] eqn:Hq.
  1:{ simpl in Hp. discriminate Hp. }
  exists e, [f], items. split; [reflexivity|]. intros s i. simpl. reflexivity.
Qed.

(** What one record appends to the three lists does not depend on the
    accumulators or on its position, and the timestamps it appends are never
    more than the samples. *)
Lemma extract_step_delta (raw : value) :
  exists fs' data' ts',
    (List.length ts' <= List.length data')%nat /\
    forall s file_idx,
      let s' := extract_step measure s file_idx raw in
      fs_combine s' = fs_combine s ++ fs' /\
      data_combine s' = data_combine s ++ data' /\
      tstamp_combine s' = tstamp_combine s ++ ts'.
Proof.
  destruct (passes raw measure) eqn:Hp.
  - destruct (passes_segment measure raw Hp) as (f & items & start_s & q & Hseg).
    exists [f], items, (Num.linspace start_s (PrimFloat.add start_s q) (List.length items)).
    split; [rewrite linspace_length; lia|].
    intros s i. cbv zeta. rewrite (extract_step_segment measure s i raw _ _ _ _ Hseg).
    simpl. auto.
  - destruct (extract_step_fails raw Hp) as (e & fs' & data' & _ & H).
    exists fs', data', []. split; [simpl; lia|].
    intros s i. cbv zeta. rewrite H. simpl. now rewrite app_nil_r.
Qed.

Lemma extract_loop_delta (raw_datas : list value) :
  exists fs' data' ts',
    (List.length ts' <= List.length data')%nat /\
    forall s file_idx,
      let s' := extract_loop measure s file_idx raw_datas in
      fs_combine s' = fs_combine s ++ fs' /\
      data_combine s' = data_combine s ++ data' /\
      tstamp_combine s' = tstamp_combine s ++ ts'.
Proof.
  induction raw_datas as [|raw rest IH].
  - exists [], [], []. split; [simpl; lia|]. intros s i. simpl. now rewrite !app_nil_r.
  - destruct (extract_step_delta raw) as (f1 & d1 & t1 & Hle1 & H1).
    destruct IH as (f2 & d2 & t2 & Hle2 & H2).
    exists (f1 ++ f2), (d1 ++ d2), (t1 ++ t2).
    split; [rewrite !length_app; lia|].
    intros s i. simpl.
    destruct (H2 (extract_step measure s i raw) (S i)) as (Ef & Ed & Et).
    destruct (H1 s i) as (Ef1 & Ed1 & Et1).
    rewrite Ef, Ed, Et, Ef1, Ed1, Et1, !app_assoc. auto.
Qed.

Lemma extract_loop_app (l1 l2 : list value) :
  forall s file_idx,
  extract_loop measure s file_idx (l1 ++ l2) =
  extract_loop measure (extract_loop measure s file_idx l1)
    (file_idx + List.length l1) l2.
Proof.
  induction l1 as [|raw l1 IH]; intros s i; simpl.
  - now rewrite Nat.add_0_r.
  - rewrite IH. f_equal. lia.
Qed.

(** X1.  Extracting from two batches put end to end gives the two series put end
    to end. *)
Theorem extract_of_concatenation (l1 l2 : list value) :
  let d := extract_signal_streamlit (l1 ++ l2) measure in
  let d1 := extract_signal_streamlit l1 measure in
  let d2 := extract_signal_streamlit l2 measure in
  fs d = fs d1 ++ fs d2 /\
  samples d = samples d1 ++ samples d2 /\
  tstamps d = tstamps d1 ++ tstamps d2.
Proof.
  unfold extract_signal_streamlit, extract_run. simpl.
  rewrite extract_loop_app.
  destruct (extract_loop_delta l2) as (f2 & d2 & t2 & _ & H2).
  destruct (H2 (extract_loop measure acc0 0 l1) (0 + List.length l1)%nat) as (Ef & Ed & Et).
  destruct (H2 acc0 0%nat) as (Ef0 & Ed0 & Et0).
  simpl in Ef0, Ed0, Et0.
  rewrite Ef, Ed, Et, Ef0, Ed0, Et0. auto.
Qed.

(** X2.  The returned series never has more timestamps than samples, whatever the
    records. *)
Theorem tstamps_never_exceed_samples (raw_datas : list value) :
  let d := extract_signal_streamlit raw_datas measure in
  (List.length (tstamps d) <= List.length (samples d))%nat.
Proof.
  unfold extract_signal_streamlit, extract_run. simpl.
  destruct (extract_loop_delta raw_datas) as (f & d & t & Hle & H).
  destruct (H acc0 0%nat) as (_ & Ed & Et). simpl in Ed, Et.
  now rewrite Ed, Et.
Qed.

Lemma passes_freq_readable (raw : value) :
  passes raw measure = true -> freq_missing raw measure = false.
Proof.
  unfold passes, freq_missing.
  destruct (measure_field raw measure "samplingFrequency"); [reflexivity | discriminate].
Qed.

(** X3.  [fs] has one entry for every record whose frequency could be read,
    whether the record went on to pass or not. *)
Theorem fs_counts_readable_frequencies (raw_datas : list value) :
  List.length (fs (extract_signal_streamlit raw_datas measure)) =
  List.length (filter (fun r => negb (freq_missing r measure)) raw_datas).
Proof.
  unfold extract_signal_streamlit, extract_run. simpl.
  assert (H : forall s i,
            List.length (fs_combine (extract_loop measure s i raw_datas)) =
            (List.length (fs_combine s) +
             List.length (filter (fun r => negb (freq_missing r measure)) raw_datas))%nat).
  { induction raw_datas as [|raw rest IH]; intros s i; simpl; [lia|].
    rewrite IH. clear IH.
    destruct (passes raw measure) eqn:Hp.
    - destruct (passes_segment measure raw Hp) as (f & items & start_s & q & Hseg).
      rewrite (extract_step_segment measure s i raw _ _ _ _ Hseg).
      rewrite (passes_freq_readable raw Hp). simpl. rewrite length_app. simpl. lia.
    - destruct (extract_step_fails raw Hp) as (e & fs' & data' & Hlen & H).
      rewrite H. simpl. rewrite length_app, Hlen.
      destruct (freq_missing raw measure); simpl; lia. }
  now rewrite H.
Qed.

Lemma error_indices_app (a b : list event) :
  error_indices (a ++ b) = error_indices a ++ error_indices b.
Proof. apply flat_map_app. Qed.

Lemma error_indices_gap (s : acc) (file_idx : nat) (start_s : float) :
  error_indices (gap_messages s file_idx start_s) = [].
Proof. unfold gap_messages. now destruct (tstamp_combine s). Qed.

Lemma extract_loop_errors (raw_datas : list value) :
  forall s file_idx,
  error_indices (messages (extract_loop measure s file_idx raw_datas)) =
  error_indices (messages s) ++ failing_indices measure file_idx raw_datas.
Proof.
  induction raw_datas as [|raw rest IH]; intros s i; simpl.
  - now rewrite app_nil_r.
  - rewrite IH. destruct (passes raw measure) eqn:Hp.
    + destruct (passes_segment measure raw Hp) as (f & items & start_s & q & Hseg).
      rewrite (extract_step_segment measure s i raw _ _ _ _ Hseg). simpl.
      now rewrite error_indices_app, error_indices_gap, app_nil_r.
    + destruct (extract_step_fails raw Hp) as (e & fs' & data' & _ & H).
      rewrite H. simpl. now rewrite error_indices_app, <- app_assoc.
Qed.

(** X4.  Every record that does not pass is reported once, in input order and
    under its position counted from zero; no passing record is reported as a
    failure; and the last message is the success message, which counts all
    the records. *)
Theorem failures_reported_by_position (raw_datas : list value) :
  exists msgs,
    messages (extract_run raw_datas measure) =
      msgs ++ [StSuccess measure (List.length raw_datas)] /\
    error_indices msgs = failing_indices measure 0 raw_datas.
Proof.
  exists (messages (extract_loop measure acc0 0 raw_datas)).
  split; [reflexivity|]. now rewrite extract_loop_errors.
Qed.

(** X5.  When every record either has no frequency to read or passes, the
    samples and the timestamps of the returned series have the same length. *)
Theorem lengths_agree_on_clean_batch (raw_datas : list value) :
  Forall (clean measure) raw_datas ->
  let d := extract_signal_streamlit raw_datas measure in
  List.length (samples d) = List.length (tstamps d).
Proof.
  intros H. unfold extract_signal_streamlit, extract_run. simpl.
  now apply (extract_loop_clean measure raw_datas acc0 0 H).
Qed.

Lemma passing_of_segment (raw sampfreq : value) (items : list value) (start_s q : float) :
  segment raw measure sampfreq items start_s q ->
  passing_freq measure raw = [sampfreq] /\ passing_items measure raw = items.
Proof.
  intros Hseg. pose proof (segment_passes measure raw _ _ _ _ Hseg) as Hp.
  destruct Hseg as (d & t & Hf & Hv & Hi & _).
  unfold passing_freq, passing_items. now rewrite Hp, Hf, Hv, Hi.
Qed.

(** X6.  On such a batch, the series holds the frequencies and the values of the
    passing records, in input order, and nothing else. *)
Theorem series_of_clean_batch (raw_datas : list value) :
  Forall (clean measure) raw_datas ->
  let d := extract_signal_streamlit raw_datas measure in
  fs d = flat_map (passing_freq measure) raw_datas /\
  samples d = flat_map (passing_items measure) raw_datas.
Proof.
  intros Hclean. unfold extract_signal_streamlit, extract_run. simpl.
  assert (H : forall s i,
            fs_combine (extract_loop measure s i raw_datas) =
              fs_combine s ++ flat_map (passing_freq measure) raw_datas /\
            data_combine (extract_loop measure s i raw_datas) =
              data_combine s ++ flat_map (passing_items measure) raw_datas).
  { induction Hclean as [|raw rest Hraw _ IH]; intros s i; simpl.
    - now rewrite !app_nil_r.
    - destruct (IH (extract_step measure s i raw) (S i)) as [-> ->].
      destruct Hraw as [Hmiss | Hpass].
      + destruct (extract_step_freq_missing measure s i raw Hmiss) as [e ->]. simpl.
        unfold passing_freq, passing_items.
        now rewrite (freq_missing_not_passes _ _ Hmiss).
      + destruct (passes_segment measure raw Hpass) as (f & items & start_s & q & Hseg).
        rewrite (extract_step_segment measure s i raw _ _ _ _ Hseg). simpl.
        destruct (passing_of_segment raw _ _ _ _ Hseg) as [-> ->].
        now rewrite <- !app_assoc. }
  destruct (H acc0 0%nat) as [-> ->]. auto.
Qed.

End ExtractorMore.

Lemma sample_batch_clean :
  Forall (clean "eda") [Sample.seg_other_measure; Sample.seg_neg_freq; Sample.seg_10_0].
Proof.
  apply Forall_cons; [left; reflexivity|].
  apply Forall_cons; [right; reflexivity|].
  apply Forall_cons; [right; reflexivity|]. apply Forall_nil.
Defined.

Lemma lengths_agree_on_clean_batch_witness :
  let d := extract_signal_streamlit
             [Sample.seg_other_measure; Sample.seg_neg_freq; Sample.seg_10_0] "eda" in
  List.length (samples d) = List.length (tstamps d).
Proof. exact (lengths_agree_on_clean_batch "eda" _ sample_batch_clean). Defined.

Lemma series_of_clean_batch_witness :
  samples (extract_signal_streamlit
             [Sample.seg_other_measure; Sample.seg_neg_freq; Sample.seg_10_0] "eda") =
  [VFloat 1; VFloat 1].
Proof.
  exact (proj2 (series_of_clean_batch "eda" _ sample_batch_clean)).
Defined.

(** * Further properties of the segment ordering and of the reading *)

Module OrderingMore.
Import Ordering OrderingFacts.

Local Open Scope string_scope.

Lemma last_char_append (p s : string) :
  s <> "" -> last_char (p ++ s) = last_char s.
Proof.
  intros Hs. induction p as [|c p IH]; [reflexivity|].
  simpl. rewrite IH. destruct (p ++ s) eqn:E; [|reflexivity].
  destruct p; simpl in E; [now subst | discriminate].
Qed.

Lemma endswith_spec (s suffix : string) :
  endswith s suffix = true -> exists p, s = p ++ suffix.
Proof.
  induction s as [|c s IH]; intros H; cbn [endswith] in H.
  - rewrite orb_false_r in H. apply String.eqb_eq in H. now exists "".
  - apply orb_prop in H as [H | H].
    + apply String.eqb_eq in H. now exists "".
    + destruct (IH H) as [p ->]. now exists (String c p).
Qed.

(** On a name that ends in ".avro", the marker is the run of ten digits in
    front of that suffix and nothing else. *)
Lemma marker_on_avro_name (s d : string) :
  endswith s ".avro" = true ->
  (marker_before_dollar s d <-> marker_before_suffix s d).
Proof.
  intros He. unfold marker_before_dollar, marker_before_suffix. split.
  - intros (Hl & Hd & p & [H | H]); [eauto|]. exfalso.
    destruct (endswith_spec _ _ He) as [q Hq].
    assert (E : last_char s = Some "o"%char).
    { rewrite Hq, last_char_append; [reflexivity | discriminate]. }
    rewrite H, <- !append_assoc, last_char_append in E; [|discriminate].
    vm_compute in E. discriminate E.
  - intros (Hl & Hd & p & H). eauto.
Qed.





Lemma digit_val_range (c : ascii) : is_digit c = true -> (0 <= digit_val c <= 9)%Z.
Proof. each_char c; intros H; try discriminate H; vm_compute; split; discriminate. Qed.

Lemma fold_digits_range (l : list ascii) :
  forall a : Z,
  (0 <= a)%Z ->
  forallb is_digit l = true ->
  (a * 10 ^ Z.of_nat (List.length l) <=
   fold_left (fun a c => 10 * a + digit_val c) l a <
   (a + 1) * 10 ^ Z.of_nat (List.length l))%Z.
Proof.
  induction l as [|c l IH]; intros a Ha Hd.
  - simpl. lia.
  - simpl in Hd. apply andb_prop in Hd as [Hc Hl].
    pose proof (digit_val_range c Hc) as Hr.
    cbn [fold_left List.length]. rewrite Nat2Z.inj_succ, Z.pow_succ_r by lia.
    specialize (IH (10 * a + digit_val c)%Z ltac:(lia) Hl).
    assert (Hpow : (0 < 10 ^ Z.of_nat (List.length l))%Z) by (apply Z.pow_pos_nonneg; lia).
    assert (Hc' : (0 <= digit_val c * 10 ^ Z.of_nat (List.length l)
                   <= 9 * 10 ^ Z.of_nat (List.length l))%Z) by nia.
    rewrite !Z.mul_add_distr_r in IH. lia.
Qed.

Lemma all_digits_forallb (d : string) :
  all_digits d = forallb is_digit (list_ascii_of_string d).
Proof. induction d as [|c d IH]; simpl; [reflexivity | now rewrite IH]. Qed.

Lemma length_list_ascii (d : string) :
  List.length (list_ascii_of_string d) = String.length d.
Proof. induction d as [|c d IH]; simpl; [reflexivity | now rewrite IH]. Qed.

(** X8.  An integer key is the value of ten decimal digits: it lies between 0 and
    9999999999. *)
Theorem key_range (filename : string) (z : Z) :
  extract_start_tstamp filename = KInt z -> (0 <= z < 10 ^ 10)%Z.
Proof.
  unfold extract_start_tstamp.
  destruct (re_search filename) as [d|] eqn:E; [|discriminate].
  intros H. inversion H; subst. clear H.
  apply re_search_spec in E. destruct E as (Hl & Hd & _).
  unfold int_of_digits.
  pose proof (fold_digits_range (list_ascii_of_string d) 0 ltac:(lia)) as Hr.
  rewrite <- all_digits_forallb, length_list_ascii, Hl in Hr.
  specialize (Hr Hd). change (Z.of_nat 10) with 10%Z in Hr. lia.
Qed.

Lemma key_range_witness : (0 <= 1700000000 < 10 ^ 10)%Z.
Proof. exact (key_range "1-1-AB12_1700000000.avro" 1700000000 eq_refl). Defined.

Section ReadingFacts.

Variable reader : list Byte.byte -> result (list value).

Lemma fold_left_records (files : list uploaded_file) :
  forall acc0 : list value,
  fold_left (fun raw_datas f =>
               match reader (getvalue f) with
               | Ok records => (raw_datas ++ records)%list
               | Raise _ => raw_datas
               end) files acc0 =
  (acc0 ++ flat_map (records_of reader) files)%list.
Proof.
  induction files as [|f files IH]; intros acc0; simpl.
  - now rewrite app_nil_r.
  - rewrite IH. unfold records_of.
    destruct (reader (getvalue f)); simpl; [now rewrite app_assoc | reflexivity].
Qed.


End ReadingFacts.

End OrderingMore.

(** * Further properties of the serializer *)

Module SerializerMore.
Import Serializer Json JsonFacts.

Local Open Scope string_scope.

(** ** Sanitizing *)

(** X10.  [_nan_to_none] returns its argument with every NaN and infinity replaced
    by [None] and nothing else changed, and what it returns holds no NaN and
    no infinity at any depth. *)
Theorem nan_to_none_removes_nonfinite (x : value) :
  sanitized x (nan_to_none x) /\ all_finite (nan_to_none x) = true.
Proof. split; [apply nan_to_none_sanitized | apply nan_to_none_all_finite]. Qed.

(** X11.  Sanitizing twice is sanitizing once. *)
Theorem nan_to_none_idempotent (x : value) :
  nan_to_none (nan_to_none x) = nan_to_none x.
Proof. apply nan_to_none_id, nan_to_none_all_finite. Qed.

(** X12.  [_nan_to_none] returns its argument unchanged exactly when the argument
    holds no NaN and no infinity. *)
Theorem nan_to_none_fixes_finite (x : value) :
  nan_to_none x = x <-> all_finite x = true.
Proof.
  split.
  - intros H. rewrite <- H. apply nan_to_none_all_finite.
  - apply nan_to_none_id.
Qed.

(** ** The rewriting of the chunks *)

Lemma erase_ws_app (a b : string) : erase_ws (a ++ b) = erase_ws a ++ erase_ws b.
Proof.
  induction a as [|c a IH]; [reflexivity|].
  simpl. rewrite IH. now destruct (is_ws c).
Qed.

Lemma string_drop_nil (k : nat) : string_drop k "" = "".
Proof. now destruct k. Qed.

Lemma prefix_drop (old s : string) :
  prefix old s = true -> s = old ++ string_drop (String.length old) s.
Proof.
  revert s. induction old as [|o old IH]; intros s H; [reflexivity|].
  destruct s as [|c s]; [discriminate H|].
  cbn [prefix] in H. destruct (ascii_dec o c) as [->|]; [|discriminate H].
  cbn [String.length string_drop append]. now rewrite <- (IH s H).
Qed.

(** Replacing a pattern by a text with the same characters other than white
    space leaves those characters of the whole as they were. *)
Lemma replace_go_erase_ws (o : ascii) (old' new : string) :
  erase_ws (String o old') = erase_ws new ->
  forall (s : string) (k : nat),
  erase_ws (replace_go (String o old') new k s) = erase_ws (string_drop k s).
Proof.
  intros Hws. induction s as [|c s IH]; intros k.
  - now rewrite string_drop_nil.
  - destruct k as [|k]; [|apply IH].
    cbn [replace_go string_drop].
    destruct (prefix (String o old') (String c s)) eqn:Hp.
    + replace (String.length (String o old') - 1)%nat with (String.length old')
        by (cbn [String.length]; lia).
      rewrite erase_ws_app, IH, <- Hws, <- erase_ws_app.
      apply prefix_drop in Hp. cbn [String.length string_drop] in Hp.
      now rewrite <- Hp.
    + change (erase_ws (String c ?t)) with
        (if is_ws c then erase_ws t else String c (erase_ws t)).
      cbn [erase_ws]. now rewrite (IH 0%nat).
Qed.

Lemma py_replace_erase_ws (o : ascii) (old' new s : string) :
  erase_ws (String o old') = erase_ws new ->
  erase_ws (py_replace (String o old') new s) = erase_ws s.
Proof. intros H. apply (replace_go_erase_ws o old' new H s 0). Qed.

Lemma compact_chunk_erase_ws (s : string) :
  erase_ws (compact_chunk s) = erase_ws s.
Proof.
  unfold compact_chunk, nl.
  change (String Ordering.newline "" ++ "  [" ++ String Ordering.newline "" ++ "    ")
    with (String Ordering.newline ("  [" ++ String Ordering.newline "" ++ "    ")).
  change (String Ordering.newline "" ++ "    ") with (String Ordering.newline "    ").
  change (String Ordering.newline "" ++ "  ]") with (String Ordering.newline "  ]").
  now rewrite !py_replace_erase_ws by reflexivity.
Qed.

Lemma erase_ws_concat (l : list string) :
  erase_ws (String.concat "" l) = String.concat "" (map erase_ws l).
Proof.
  induction l as [|x l IH]; [reflexivity|].
  cbn [map]. now rewrite !concat_cons, erase_ws_app, IH.
Qed.

(** X13.  The three replacements of [CompactJSONEncoder.iterencode] change nothing
    but white space, in whatever chunks the text comes: the chunks joined
    after the replacements and the chunks joined as they were have the same
    characters other than white space. *)
Theorem compact_chunk_only_whitespace (chunks : list string) :
  erase_ws (String.concat "" (map compact_chunk chunks)) =
  erase_ws (String.concat "" chunks).
Proof.
  rewrite !erase_ws_concat, map_map. f_equal.
  apply map_ext. exact compact_chunk_erase_ws.
Qed.

Lemma escape_char_no_newline (c : ascii) : all_chars not_newline (escape_char c) = true.
Proof. each_char c; reflexivity. Qed.

Lemma escape_no_newline (s : string) : all_chars not_newline (escape s) = true.
Proof.
  induction s as [|c s IH]; [reflexivity|].
  cbn [escape]. now rewrite all_chars_app, escape_char_no_newline, IH.
Qed.

(** X15.  An encoded string holds no raw newline, and neither does the text of an
    integer: the chunk of a string key, of a string value or of an integer
    goes through [CompactJSONEncoder.iterencode] unchanged. *)
Theorem strings_and_integers_kept (s : string) (z : Z) :
  compact_chunk (encode_basestring s) = encode_basestring s /\
  compact_chunk (intstr z) = intstr z.
Proof.
  split; apply compact_chunk_no_newline.
  - unfold encode_basestring. now rewrite !all_chars_app, escape_no_newline.
  - apply (all_chars_impl item_char); [apply item_char_not_newline | apply intstr_chars].
Qed.

Section Output.

Variable float_repr : float -> string.
Variable pickle_dumps : value -> list Byte.byte.
Variable frame_to_csv : value -> value -> result string.

Local Abbreviation serialize :=
  (serialize_data_dict float_repr pickle_dumps frame_to_csv).

(** X14.  For every value, the text written with [CompactJSONEncoder] and the text
    written by the standard encoder with [indent=2] are the same once white
    space is left out. *)
Theorem json_dumps_only_whitespace (o : value) :
  erase_ws (json_dumps float_repr o) = erase_ws (json_dumps_plain float_repr o).
Proof.
  unfold json_dumps, json_dumps_plain, compact_iterencode.
  rewrite !erase_ws_concat, map_map. f_equal.
  apply map_ext. intros s. apply compact_chunk_erase_ws.
Qed.

(** X17.  The CSV file is made from the entries "tstamps" and "samples" alone: two
    dicts that agree on these two keys, present or absent, give the same
    result, whatever their other entries, "fs" among them. *)
Theorem csv_uses_tstamps_and_samples (d d' : list (string * value))
    (fmt base_name : string) :
  py_strip (py_lower fmt) = "csv" ->
  dict_get d "tstamps" = dict_get d' "tstamps" ->
  dict_get d "samples" = dict_get d' "samples" ->
  serialize (VDict d) fmt base_name = serialize (VDict d') fmt base_name.
Proof.
  intros Hf Ht Hs. unfold serialize_data_dict. rewrite Hf.
  cbn [String.eqb Ascii.eqb Bool.eqb]. unfold dict_get_default.
  now rewrite Ht, Hs.
Qed.

End Output.

Section Layout.

Variable float_repr : float -> string.
Hypothesis float_repr_literal :
  forall f, PrimFloat.is_finite f = true -> float_literal (float_repr f) = true.

Lemma sanitized_items_good (l : list value) :
  Forall (fun v => plain v = true) l ->
  Forall (fun v => good v = true) (map nan_to_none l).
Proof.
  induction 1 as [|v l Hv _ IH]; [constructor|].
  cbn [map]. constructor; [|exact IH].
  unfold good. rewrite nan_to_none_all_finite, andb_true_r.
  destruct v as [| | |f| | |]; try exact Hv; try reflexivity.
  cbn [nan_to_none]. now destruct (PrimFloat.is_nan f || PrimFloat.is_infinity f).
Qed.

(** X16.  The JSON text of a series of numbers, [None] and booleans: an object with
    the keys "fs", "samples" and "tstamps" on a line each; an empty array is
    written [[]], and any other array has its sanitized items on one line
    after the opening bracket, separated by a comma and a space, and its
    closing bracket on the next line. *)
Theorem json_layout_of_series (a b c : list value) :
  Forall (fun v => plain v = true) a ->
  Forall (fun v => plain v = true) b ->
  Forall (fun v => plain v = true) c ->
  json_dumps float_repr (nan_to_none (series a b c)) =
    series_text (compact_array float_repr)
      (map nan_to_none a) (map nan_to_none b) (map nan_to_none c).
Proof.
  intros Ha Hb Hc.
  change (nan_to_none (series a b c))
    with (series (map nan_to_none a) (map nan_to_none b) (map nan_to_none c)).
  apply (json_dumps_series float_repr float_repr_literal); now apply sanitized_items_good.
Qed.

End Layout.

Lemma json_layout_of_series_witness :
  json_dumps Sample.float_repr
    (nan_to_none (series [VInt 4] [VFloat nan; VInt 1] [])) =
  "{" ++ nl ++
  "  " ++ encode_basestring "fs" ++ ": [ 4" ++ nl ++ "  ]," ++ nl ++
  "  " ++ encode_basestring "samples" ++ ": [ null, 1" ++ nl ++ "  ]," ++ nl ++
  "  " ++ encode_basestring "tstamps" ++ ": []" ++ nl ++
  "}".
Proof.
  refine (json_layout_of_series Sample.float_repr _
            [VInt 4] [VFloat nan; VInt 1] [] _ _ _).
  - intros f _. reflexivity.
  - repeat constructor.
  - repeat constructor.
  - constructor.
Defined.

Lemma csv_uses_tstamps_and_samples_witness :
  serialize_data_dict Sample.float_repr Sample.pickle_dumps Sample.frame_to_csv
    (series [VFloat 4] [VFloat 1] [VFloat 10]) " CSV" "x" =
  serialize_data_dict Sample.float_repr Sample.pickle_dumps Sample.frame_to_csv
    (VDict [("tstamps", VList [VFloat 10]); ("samples", VList [VFloat 1])]) " CSV" "x".
Proof.
  apply (csv_uses_tstamps_and_samples Sample.float_repr Sample.pickle_dumps
           Sample.frame_to_csv); reflexivity.
Defined.

End SerializerMore.

(** * The JSON file of a numeric series, written and read back *)

Module JsonRoundTrip.
Import Serializer Json JsonFacts SerializerMore.

Local Open Scope string_scope.

Lemma any_char_app (p : ascii -> bool) (a b : string) :
  any_char p (a ++ b) = any_char p a || any_char p b.
Proof.
  induction a as [|x a IH]; simpl; [reflexivity|]. now rewrite IH, orb_assoc.
Qed.

Lemma digits_head (u : string) (s : string) :
  u <> "" -> all_chars Ordering.is_digit u = true ->
  FloatText.strip_sign (u ++ s) = (false, u ++ s).
Proof.
  intros Hne Hd. destruct u as [|x u]; [now destruct Hne|].
  simpl in Hd. apply andb_prop in Hd as [Hx _].
  each_char x; try reflexivity; discriminate Hx.
Qed.

Lemma split_e_app (u s : string) :
  all_chars Ordering.is_digit u = true ->
  FloatText.split_e (u ++ String "e" s) = (u, s).
Proof.
  induction u as [|x u IH]; [reflexivity|].
  intros Hd. simpl in Hd. apply andb_prop in Hd as [Hx Hd].
  cbn [append FloatText.split_e]. rewrite (IH Hd).
  each_char x; try reflexivity; discriminate Hx.
Qed.

Lemma uint_text_not_empty (p : positive) : NilEmpty.string_of_uint (Pos.to_uint p) <> "".
Proof.
  pose proof (to_uint_not_nil p) as H.
  destruct (Pos.to_uint p); simpl; try discriminate. now destruct H.
Qed.

Lemma body_of_text (m : positive) (e : Z) :
  let body := NilEmpty.string_of_uint (Pos.to_uint m) ++ "e" ++
              NilZero.string_of_int (Z.to_int e) in
  FloatText.strip_sign body = (false, body) /\
  FloatText.split_e body =
    (NilEmpty.string_of_uint (Pos.to_uint m), NilZero.string_of_int (Z.to_int e)).
Proof.
  split.
  - apply digits_head; [apply uint_text_not_empty | apply uint_digits].
  - apply split_e_app, uint_digits.
Qed.

(** Reading the text of a finite float gives the float back. *)
Lemma float_text_reads_back (f : float) :
  PrimFloat.is_finite f = true ->
  FloatText.float_of_text (FloatText.float_repr f) = Some f.
Proof.
  intros H. rewrite <- (SF2Prim_Prim2SF f) at 2.
  unfold FloatText.float_repr.
  destruct (finite_cases f H) as [[sg ->] | (sg & m & e & ->)].
  - now destruct sg.
  - destruct (body_of_text m e) as [E1 E2]. destruct (to_int_proper e) as [H1 H2].
    unfold FloatText.float_of_text.
    destruct sg; cbn [FloatText.sign_text].
    + change (FloatText.strip_sign ("-" ++ ?s)) with (true, s).
      cbv beta iota. rewrite E2, NilEmpty.usu, (NilZero.isi _ H1 H2).
      now rewrite DecimalPos.Unsigned.of_to, DecimalZ.of_to.
    + change ("" ++ ?s) with s.
      rewrite E1. cbv beta iota. rewrite E2, NilEmpty.usu, (NilZero.isi _ H1 H2).
      now rewrite DecimalPos.Unsigned.of_to, DecimalZ.of_to.
Qed.

Lemma int_text_number_chars (d : Decimal.int) :
  all_chars is_number_char (NilZero.string_of_int d) = true.
Proof.
  unfold NilZero.string_of_int, NilZero.string_of_uint.
  destruct d as [d|d]; [destruct d | simpl; destruct d]; simpl; try reflexivity;
    apply (all_chars_impl Ordering.is_digit); auto using digit_number_char, uint_digits.
Qed.

(** The text of a finite float is a number literal with an exponent. *)
Lemma float_text_literal (f : float) :
  PrimFloat.is_finite f = true -> float_literal (FloatText.float_repr f) = true.
Proof.
  intros H. unfold FloatText.float_repr.
  destruct (finite_cases f H) as [[sg ->] | (sg & m & e & ->)]; [now destruct sg|].
  unfold float_literal.
  assert (Hc : all_chars is_number_char
                 (NilEmpty.string_of_uint (Pos.to_uint m) ++ "e" ++
                  NilZero.string_of_int (Z.to_int e)) = true).
  { rewrite !all_chars_app, int_text_number_chars, andb_true_r.
    apply (all_chars_impl Ordering.is_digit); auto using digit_number_char, uint_digits. }
  assert (Hm : any_char is_float_marker
                 (NilEmpty.string_of_uint (Pos.to_uint m) ++ "e" ++
                  NilZero.string_of_int (Z.to_int e)) = true).
  { rewrite any_char_app. cbn [append any_char].
    change (is_float_marker "e") with true. now rewrite orb_true_r. }
  pose proof (uint_text_not_empty m) as Hne.
  destruct sg; cbn [FloatText.sign_text].
  - change ("-" ++ ?s) with (String "-" s).
    cbn [all_chars any_char]. rewrite Hc, Hm. reflexivity.
  - change ("" ++ ?s) with s. rewrite Hc, Hm.
    destruct (NilEmpty.string_of_uint (Pos.to_uint m)); [now destruct Hne | reflexivity].
Qed.

Section RoundTrip.

Variable float_repr : float -> string.
Variable float_of_text : string -> option float.
Hypothesis float_repr_literal :
  forall f, PrimFloat.is_finite f = true -> float_literal (float_repr f) = true.
Hypothesis float_of_text_repr :
  forall f, PrimFloat.is_finite f = true -> float_of_text (float_repr f) = Some f.

Variable pickle_dumps : value -> list Byte.byte.
Variable frame_to_csv : value -> value -> result string.

(** C7.  For every value, the JSON file is the UTF-8 text of the sanitized
    value, which is the value with every NaN and infinity replaced by [None],
    lists and dicts being walked, and nothing else changed; it holds no NaN
    and no infinity; and its text differs from the text of the standard
    encoder in white space only.  For a series of numbers, [None] and
    booleans, the text holds neither "NaN" nor "Infinity", and reading the
    bytes back gives exactly the sanitized series.  The text of a finite
    float is taken to be a number literal with a point or an exponent that
    reads back as the float. *)
Theorem json_round_trip :
  (forall (x : value) (base_name : string),
     let y := nan_to_none x in
     serialize_data_dict float_repr pickle_dumps frame_to_csv x "json" base_name =
       Ok (utf8_encode (json_dumps float_repr y), base_name ++ ".json", "application/json") /\
     sanitized x y /\
     all_finite y = true /\
     erase_ws (json_dumps float_repr y) = erase_ws (json_dumps_plain float_repr y)) /\
  (forall a b c : list value,
     Forall (fun v => plain v = true) a ->
     Forall (fun v => plain v = true) b ->
     Forall (fun v => plain v = true) c ->
     let y := nan_to_none (series a b c) in
     let text := json_dumps float_repr y in
     contains "NaN" text = false /\
     contains "Infinity" text = false /\
     loads float_of_text (utf8_encode text) = Some y).
Proof.
  split.
  - intros x base_name y.
    split; [reflexivity|].
    split; [apply nan_to_none_sanitized|].
    split; [apply nan_to_none_all_finite|].
    unfold json_dumps, json_dumps_plain, compact_iterencode.
    rewrite !erase_ws_concat, map_map. f_equal.
    apply map_ext. intros s. apply compact_chunk_erase_ws.
  - intros a b c Ha Hb Hc y text.
    pose proof (sanitized_items_good a Ha) as Ga.
    pose proof (sanitized_items_good b Hb) as Gb.
    pose proof (sanitized_items_good c Hc) as Gc.
    assert (Et : text = series_text (compact_array float_repr)
                          (map nan_to_none a) (map nan_to_none b) (map nan_to_none c)).
    { apply (json_dumps_series float_repr float_repr_literal); assumption. }
    assert (Hchars : all_chars out_char text = true).
    { rewrite Et. apply (series_text_chars float_repr float_repr_literal); assumption. }
    split; [now apply (contains_absent out_char)|].
    split; [now apply (contains_absent out_char)|].
    unfold loads. rewrite utf8_round_trip, Et.
    apply (loads_text_series float_repr float_of_text float_repr_literal float_of_text_repr);
      assumption.
Qed.

End RoundTrip.

Lemma json_round_trip_witness :
  loads FloatText.float_of_text
    (utf8_encode
       (json_dumps FloatText.float_repr
          (nan_to_none (series [VFloat 4] [VFloat nan; VFloat 1.5; VInt 2] [VFloat 10])))) =
  Some (series [VFloat 4] [VNone; VFloat 1.5; VInt 2] [VFloat 10]).
Proof.
  refine (proj2 (proj2
    (proj2 (json_round_trip FloatText.float_repr FloatText.float_of_text
              float_text_literal float_text_reads_back
              Sample.pickle_dumps Sample.frame_to_csv)
       [VFloat 4] [VFloat nan; VFloat 1.5; VInt 2] [VFloat 10] _ _ _)));
    repeat constructor.
Defined.

End JsonRoundTrip.
